(** * Dynamic difficulty adjustment: a shallow embedding of
      [src/systems/DynamicDifficulty.ts]

    The class [DynamicDifficultyAdjuster] is modelled by the record
    [Adjuster] (one field per private member) and each method by a function
    that takes the object before the call and returns the object after it.

    Modelling choices, all of them visible in the definitions below:

    - A JavaScript [number] that holds a measurement (metrics, settings,
      intensities) is an exact rational [Q]; the arithmetic of the source is
      therefore read over the rationals, without the rounding of IEEE
      doubles and without NaN or the infinities.  Decimal literals such as
      [0.7] denote the rational 7/10.  The properties of order, range and
      bookkeeping are stated over this reading.
    - Where a property is about the numbers that the arithmetic produces,
      the code is embedded over binary64 itself, with Rocq's primitive
      floats: the settings computed by [adjustDifficulty] and
      [clampSettings] (module [Binary64]) and the score of the game state
      manager.
    - A [number] that only ever holds a clock reading or a counter
      ([Date.now()], [deathCount], ...) is an integer [Z].
    - [Date.now()] is an input: [updateMetrics] reads the clock once itself
      (line 59) and once more inside [considerAdjustment] (line 138); the two
      readings are the arguments [now] and [now'].
    - [console.log] in [adjustDifficulty] is an output; the lines written so
      far are kept in the field [console].
    - The optional payload [data?: any] of [updateMetrics] is an optional
      record whose optional field [expectedTime] is a number.

    Two collaborators of the controller in the game loop are embedded as
    well, each in a module of its own: the game state manager
    ([gameState.ts]) and the object pool ([systems/ObjectPool.ts]). *)

From Stdlib Require Import ZArith QArith Qround Qabs Qminmax Lqa Lia.
From Stdlib Require Import String List Bool PrimFloat.
From Stdlib Require Import Qpower Permutation.
From Stdlib Require Import SpecFloat FloatClass.
From Stdlib Require FloatOps FloatAxioms.

#[local] Set Warnings "-inexact-float".
Import ListNotations.

Open Scope Q_scope.

(** ** The fragment of JavaScript's [Math] and of its comparisons in use *)

Module JS.

(** [a < b] on numbers. *)
Definition lt (a b : Q) : bool := if Qlt_le_dec a b then true else false.

(** [a > b] on numbers. *)
Definition gt (a b : Q) : bool := lt b a.

Definition Math_max (a b : Q) : Q := if Qlt_le_dec a b then b else a.

Definition Math_min (a b : Q) : Q := if Qlt_le_dec b a then b else a.

Definition Math_abs (a : Q) : Q := if Qlt_le_dec a 0 then - a else a.

Definition Math_ceil (a : Q) : Q := inject_Z (Qceiling a).

Definition Math_floor (a : Q) : Q := inject_Z (Qfloor a).

(** Truthiness of [data?.expectedTime]: [undefined] and [0] are falsy,
    every other number is truthy. *)
Definition truthy (v : option Q) : bool :=
  match v with
  | Some t => negb (Qeq_bool t 0)
  | None => false
  end.

End JS.

Import JS.

(** ** Data model *)

Record PlayerMetrics : Type := {
  successRate : Q;
  averageAttempts : Q;
  reactionTime : Q;
  frustrationLevel : Q;
  engagementScore : Q;
  skillLevel : Q
}.

Record DifficultySettings : Type := {
  enemySpeed : Q;
  enemyCount : Q;
  platformSpacing : Q;
  ringRequirement : Q;
  gravityStrength : Q;
  powerUpFrequency : Q
}.

(** The string literal type ['increase' | 'decrease']. *)
Inductive Direction : Type := increase | decrease.

(** The object returned by [shouldAdjustDifficulty]. *)
Record Decision : Type := {
  adjust : bool;
  direction : Direction;
  intensity : Q
}.

(** One line written by [console.log] in [adjustDifficulty]: the direction
    and the intensity that the message formats. *)
Record LogLine : Type := {
  logDirection : Direction;
  logIntensity : Q
}.

(** The payload of a [player_input] event. *)
Record Payload : Type := {
  expectedTime : option Q
}.

Record Adjuster : Type := {
  playerMetrics : PlayerMetrics;
  baseSettings : DifficultySettings;
  currentSettings : DifficultySettings;
  adjustmentHistory : list Q;
  lastAdjustmentTime : Z;
  deathCount : Z;
  levelStartTime : Z;
  lastActionTime : Z;
  consecutiveFailures : Z;
  consecutiveSuccesses : Z;
  console : list LogLine
}.

Definition OPTIMAL_SUCCESS_RATE : Q := 0.7.
Definition ADJUSTMENT_COOLDOWN : Z := 10000.
Definition MAX_ADJUSTMENT_RATE : Q := 0.15.

(** *** Field assignments *)

Definition set_successRate (v : Q) (m : PlayerMetrics) : PlayerMetrics :=
  {| successRate := v;
     averageAttempts := averageAttempts m;
     reactionTime := reactionTime m;
     frustrationLevel := frustrationLevel m;
     engagementScore := engagementScore m;
     skillLevel := skillLevel m |}.

Definition set_reactionTime (v : Q) (m : PlayerMetrics) : PlayerMetrics :=
  {| successRate := successRate m;
     averageAttempts := averageAttempts m;
     reactionTime := v;
     frustrationLevel := frustrationLevel m;
     engagementScore := engagementScore m;
     skillLevel := skillLevel m |}.

Definition set_frustrationLevel (v : Q) (m : PlayerMetrics) : PlayerMetrics :=
  {| successRate := successRate m;
     averageAttempts := averageAttempts m;
     reactionTime := reactionTime m;
     frustrationLevel := v;
     engagementScore := engagementScore m;
     skillLevel := skillLevel m |}.

Definition set_engagementScore (v : Q) (m : PlayerMetrics) : PlayerMetrics :=
  {| successRate := successRate m;
     averageAttempts := averageAttempts m;
     reactionTime := reactionTime m;
     frustrationLevel := frustrationLevel m;
     engagementScore := v;
     skillLevel := skillLevel m |}.

Definition set_skillLevel (v : Q) (m : PlayerMetrics) : PlayerMetrics :=
  {| successRate := successRate m;
     averageAttempts := averageAttempts m;
     reactionTime := reactionTime m;
     frustrationLevel := frustrationLevel m;
     engagementScore := engagementScore m;
     skillLevel := v |}.

Definition set_enemySpeed (v : Q) (c : DifficultySettings) : DifficultySettings :=
  {| enemySpeed := v;
     enemyCount := enemyCount c;
     platformSpacing := platformSpacing c;
     ringRequirement := ringRequirement c;
     gravityStrength := gravityStrength c;
     powerUpFrequency := powerUpFrequency c |}.

Definition set_enemyCount (v : Q) (c : DifficultySettings) : DifficultySettings :=
  {| enemySpeed := enemySpeed c;
     enemyCount := v;
     platformSpacing := platformSpacing c;
     ringRequirement := ringRequirement c;
     gravityStrength := gravityStrength c;
     powerUpFrequency := powerUpFrequency c |}.

Definition set_platformSpacing (v : Q) (c : DifficultySettings) : DifficultySettings :=
  {| enemySpeed := enemySpeed c;
     enemyCount := enemyCount c;
     platformSpacing := v;
     ringRequirement := ringRequirement c;
     gravityStrength := gravityStrength c;
     powerUpFrequency := powerUpFrequency c |}.

Definition set_gravityStrength (v : Q) (c : DifficultySettings) : DifficultySettings :=
  {| enemySpeed := enemySpeed c;
     enemyCount := enemyCount c;
     platformSpacing := platformSpacing c;
     ringRequirement := ringRequirement c;
     gravityStrength := v;
     powerUpFrequency := powerUpFrequency c |}.

Definition set_powerUpFrequency (v : Q) (c : DifficultySettings) : DifficultySettings :=
  {| enemySpeed := enemySpeed c;
     enemyCount := enemyCount c;
     platformSpacing := platformSpacing c;
     ringRequirement := ringRequirement c;
     gravityStrength := gravityStrength c;
     powerUpFrequency := v |}.

Definition set_playerMetrics (v : PlayerMetrics) (s : Adjuster) : Adjuster :=
  {| playerMetrics := v;
     baseSettings := baseSettings s;
     currentSettings := currentSettings s;
     adjustmentHistory := adjustmentHistory s;
     lastAdjustmentTime := lastAdjustmentTime s;
     deathCount := deathCount s;
     levelStartTime := levelStartTime s;
     lastActionTime := lastActionTime s;
     consecutiveFailures := consecutiveFailures s;
     consecutiveSuccesses := consecutiveSuccesses s;
     console := console s |}.

Definition set_currentSettings (v : DifficultySettings) (s : Adjuster) : Adjuster :=
  {| playerMetrics := playerMetrics s;
     baseSettings := baseSettings s;
     currentSettings := v;
     adjustmentHistory := adjustmentHistory s;
     lastAdjustmentTime := lastAdjustmentTime s;
     deathCount := deathCount s;
     levelStartTime := levelStartTime s;
     lastActionTime := lastActionTime s;
     consecutiveFailures := consecutiveFailures s;
     consecutiveSuccesses := consecutiveSuccesses s;
     console := console s |}.

Definition set_adjustmentHistory (v : list Q) (s : Adjuster) : Adjuster :=
  {| playerMetrics := playerMetrics s;
     baseSettings := baseSettings s;
     currentSettings := currentSettings s;
     adjustmentHistory := v;
     lastAdjustmentTime := lastAdjustmentTime s;
     deathCount := deathCount s;
     levelStartTime := levelStartTime s;
     lastActionTime := lastActionTime s;
     consecutiveFailures := consecutiveFailures s;
     consecutiveSuccesses := consecutiveSuccesses s;
     console := console s |}.

Definition set_lastAdjustmentTime (v : Z) (s : Adjuster) : Adjuster :=
  {| playerMetrics := playerMetrics s;
     baseSettings := baseSettings s;
     currentSettings := currentSettings s;
     adjustmentHistory := adjustmentHistory s;
     lastAdjustmentTime := v;
     deathCount := deathCount s;
     levelStartTime := levelStartTime s;
     lastActionTime := lastActionTime s;
     consecutiveFailures := consecutiveFailures s;
     consecutiveSuccesses := consecutiveSuccesses s;
     console := console s |}.

Definition set_deathCount (v : Z) (s : Adjuster) : Adjuster :=
  {| playerMetrics := playerMetrics s;
     baseSettings := baseSettings s;
     currentSettings := currentSettings s;
     adjustmentHistory := adjustmentHistory s;
     lastAdjustmentTime := lastAdjustmentTime s;
     deathCount := v;
     levelStartTime := levelStartTime s;
     lastActionTime := lastActionTime s;
     consecutiveFailures := consecutiveFailures s;
     consecutiveSuccesses := consecutiveSuccesses s;
     console := console s |}.

Definition set_levelStartTime (v : Z) (s : Adjuster) : Adjuster :=
  {| playerMetrics := playerMetrics s;
     baseSettings := baseSettings s;
     currentSettings := currentSettings s;
     adjustmentHistory := adjustmentHistory s;
     lastAdjustmentTime := lastAdjustmentTime s;
     deathCount := deathCount s;
     levelStartTime := v;
     lastActionTime := lastActionTime s;
     consecutiveFailures := consecutiveFailures s;
     consecutiveSuccesses := consecutiveSuccesses s;
     console := console s |}.

Definition set_lastActionTime (v : Z) (s : Adjuster) : Adjuster :=
  {| playerMetrics := playerMetrics s;
     baseSettings := baseSettings s;
     currentSettings := currentSettings s;
     adjustmentHistory := adjustmentHistory s;
     lastAdjustmentTime := lastAdjustmentTime s;
     deathCount := deathCount s;
     levelStartTime := levelStartTime s;
     lastActionTime := v;
     consecutiveFailures := consecutiveFailures s;
     consecutiveSuccesses := consecutiveSuccesses s;
     console := console s |}.

Definition set_consecutiveFailures (v : Z) (s : Adjuster) : Adjuster :=
  {| playerMetrics := playerMetrics s;
     baseSettings := baseSettings s;
     currentSettings := currentSettings s;
     adjustmentHistory := adjustmentHistory s;
     lastAdjustmentTime := lastAdjustmentTime s;
     deathCount := deathCount s;
     levelStartTime := levelStartTime s;
     lastActionTime := lastActionTime s;
     consecutiveFailures := v;
     consecutiveSuccesses := consecutiveSuccesses s;
     console := console s |}.

Definition set_consecutiveSuccesses (v : Z) (s : Adjuster) : Adjuster :=
  {| playerMetrics := playerMetrics s;
     baseSettings := baseSettings s;
     currentSettings := currentSettings s;
     adjustmentHistory := adjustmentHistory s;
     lastAdjustmentTime := lastAdjustmentTime s;
     deathCount := deathCount s;
     levelStartTime := levelStartTime s;
     lastActionTime := lastActionTime s;
     consecutiveFailures := consecutiveFailures s;
     consecutiveSuccesses := v;
     console := console s |}.

Definition set_console (v : list LogLine) (s : Adjuster) : Adjuster :=
  {| playerMetrics := playerMetrics s;
     baseSettings := baseSettings s;
     currentSettings := currentSettings s;
     adjustmentHistory := adjustmentHistory s;
     lastAdjustmentTime := lastAdjustmentTime s;
     deathCount := deathCount s;
     levelStartTime := levelStartTime s;
     lastActionTime := lastActionTime s;
     consecutiveFailures := consecutiveFailures s;
     consecutiveSuccesses := consecutiveSuccesses s;
     console := v |}.

(** ** The methods of [DynamicDifficultyAdjuster] *)

(** [constructor(baseSettings)], lines 42-53, with the field initialisers
    of lines 27-40. *)
Definition constructor (base : DifficultySettings) : Adjuster :=
  {| playerMetrics :=
       {| successRate := 0.7;
          averageAttempts := 3;
          reactionTime := 300;
          frustrationLevel := 0.3;
          engagementScore := 0.7;
          skillLevel := 0.5 |};
     baseSettings := base;
     currentSettings := base;
     adjustmentHistory := [];
     lastAdjustmentTime := 0;
     deathCount := 0;
     levelStartTime := 0;
     lastActionTime := 0;
     consecutiveFailures := 0;
     consecutiveSuccesses := 0;
     console := [] |}.

(** [lerp(a, b, t)], lines 215-217. *)
Definition lerp (a b t : Q) : Q := a + (b - a) * t.

(** [updateSuccessRate(attempts)], lines 106-109.  The only caller passes
    [deathCount + 1], which is at least 1 in every reachable state
    ([run_ratesInUnit] below), so the division never meets a zero. *)
Definition updateSuccessRate (attempts : Q) (s : Adjuster) : Adjuster :=
  let successRate' := 1 / attempts in
  set_playerMetrics
    (set_successRate
       (lerp (successRate (playerMetrics s)) successRate' 0.2)
       (playerMetrics s)) s.

(** [updateFrustrationLevel(delta)], lines 111-113. *)
Definition updateFrustrationLevel (delta : Q) (s : Adjuster) : Adjuster :=
  set_playerMetrics
    (set_frustrationLevel
       (Math_max 0 (Math_min 1 (frustrationLevel (playerMetrics s) + delta)))
       (playerMetrics s)) s.

(** [updateEngagementScore(levelTime, attempts, bonus = 0)], lines 115-122.
    A caller that omits [bonus] passes [0]. *)
Definition updateEngagementScore (levelTime attempts bonus : Q)
    (s : Adjuster) : Adjuster :=
  let timeScore := Math_max 0 (1 - levelTime / 60000) in
  let attemptScore := Math_max 0 (1 - attempts / 5) in
  let newEngagement := (timeScore + attemptScore) / 2 + bonus in
  set_playerMetrics
    (set_engagementScore
       (lerp (engagementScore (playerMetrics s)) newEngagement 0.3)
       (playerMetrics s)) s.

(** [updateSkillLevel()], lines 124-132. *)
Definition updateSkillLevel (s : Adjuster) : Adjuster :=
  let successComponent := successRate (playerMetrics s) in
  let reactionComponent :=
    Math_max 0 (1 - reactionTime (playerMetrics s) / 1000) in
  let consistencyComponent :=
    Math_min (inject_Z (consecutiveSuccesses s) / 5) 1 in
  let newSkill :=
    (successComponent + reactionComponent + consistencyComponent) / 3 in
  set_playerMetrics
    (set_skillLevel
       (lerp (skillLevel (playerMetrics s)) newSkill 0.1)
       (playerMetrics s)) s.

(** [shouldAdjustDifficulty()], lines 151-173. *)
Definition shouldAdjustDifficulty (s : Adjuster) : Decision :=
  let successRate := successRate (playerMetrics s) in
  let frustrationLevel := frustrationLevel (playerMetrics s) in
  let engagementScore := engagementScore (playerMetrics s) in
  let skillLevel := skillLevel (playerMetrics s) in
  if gt frustrationLevel 0.7 || lt successRate 0.4
     || (3 <? consecutiveFailures s)%Z
  then {| adjust := true; direction := decrease;
          intensity := Math_min frustrationLevel 0.2 |}
  else
  if lt engagementScore 0.4 || gt successRate 0.9
     || (5 <? consecutiveSuccesses s)%Z
  then
    let intensity := if gt successRate 0.9 then 0.15 else 0.1 in
    {| adjust := true; direction := increase; intensity := intensity |}
  else
  let skillDifference := skillLevel - 0.5 in
  if gt (Math_abs skillDifference) 0.2
  then
    let direction := if gt skillDifference 0 then increase else decrease in
    {| adjust := true; direction := direction;
       intensity := Math_abs skillDifference * 0.1 |}
  else {| adjust := false; direction := increase; intensity := 0 |}.

(** [clampSettings()], lines 207-213. *)
Definition clampSettings (s : Adjuster) : Adjuster :=
  let c := currentSettings s in
  let c := set_enemySpeed (Math_max 50 (Math_min 300 (enemySpeed c))) c in
  let c := set_enemyCount (Math_max 1 (Math_min 10 (enemyCount c))) c in
  let c :=
    set_platformSpacing (Math_max 50 (Math_min 200 (platformSpacing c))) c in
  let c :=
    set_gravityStrength (Math_max 300 (Math_min 800 (gravityStrength c))) c in
  let c :=
    set_powerUpFrequency (Math_max 0.1 (Math_min 1 (powerUpFrequency c))) c in
  set_currentSettings c s.

(** [adjustDifficulty(direction, intensity)], lines 178-205.  The history
    keeps the most recent entry last; [shift()] drops the head. *)
Definition adjustDifficulty (direction : Direction) (intensity : Q)
    (s : Adjuster) : Adjuster :=
  let multiplier :=
    match direction with
    | increase => 1 + intensity
    | decrease => 1 - intensity
    end in
  let c := currentSettings s in
  let c := set_enemySpeed (enemySpeed c * multiplier) c in
  let c := set_gravityStrength (gravityStrength c * multiplier) c in
  let c :=
    match direction with
    | increase =>
        let c :=
          set_enemyCount
            (Math_min 10 (Math_ceil (enemyCount c * multiplier))) c in
        let c := set_platformSpacing (platformSpacing c * 1.1) c in
        set_powerUpFrequency (powerUpFrequency c * 0.9) c
    | decrease =>
        let c :=
          set_enemyCount
            (Math_max 1 (Math_floor (enemyCount c * multiplier))) c in
        let c := set_platformSpacing (platformSpacing c * 0.9) c in
        set_powerUpFrequency (powerUpFrequency c * 1.1) c
    end in
  let s := clampSettings (set_currentSettings c s) in
  let pushed :=
    adjustmentHistory s ++
    [match direction with
     | increase => intensity
     | decrease => - intensity
     end] in
  let s :=
    set_adjustmentHistory
      (if (10 <? length pushed)%nat then tl pushed else pushed) s in
  set_console
    (console s ++
     [{| logDirection := direction; logIntensity := intensity |}]) s.

(** [considerAdjustment()], lines 137-146; [now] is the clock reading of
    line 138. *)
Definition considerAdjustment (now : Z) (s : Adjuster) : Adjuster :=
  if (now - lastAdjustmentTime s <? ADJUSTMENT_COOLDOWN)%Z then s
  else
    let shouldAdjust := shouldAdjustDifficulty s in
    if adjust shouldAdjust
    then
      set_lastAdjustmentTime now
        (adjustDifficulty (direction shouldAdjust) (intensity shouldAdjust) s)
    else s.

(** The [switch] of [updateMetrics], lines 61-100; an event that matches no
    [case] falls through the statement.  [marker] is [data?.expectedTime]. *)
Definition handleEvent (event : string) (data : option Payload) (now : Z)
    (s : Adjuster) : Adjuster :=
  if (event =? "level_start")%string then
    set_deathCount 0 (set_levelStartTime now s)
  else if (event =? "player_death")%string then
    let s := set_deathCount (deathCount s + 1) s in
    let s := set_consecutiveFailures (consecutiveFailures s + 1) s in
    let s := set_consecutiveSuccesses 0 s in
    updateFrustrationLevel 0.1 s
  else if (event =? "level_complete")%string then
    let levelTime := (now - levelStartTime s)%Z in
    let attempts := (deathCount s + 1)%Z in
    let s := updateSuccessRate (inject_Z attempts) s in
    let s := set_consecutiveSuccesses (consecutiveSuccesses s + 1) s in
    let s := set_consecutiveFailures 0 s in
    updateEngagementScore (inject_Z levelTime) (inject_Z attempts) 0 s
  else if (event =? "ring_collected")%string then
    let s := set_lastActionTime now s in
    updateFrustrationLevel (-0.02) s
  else if (event =? "power_up_collected")%string then
    updateEngagementScore 0 0 0.05 s
  else if (event =? "player_input")%string then
    let marker :=
      match data with
      | Some d => expectedTime d
      | None => None
      end in
    if truthy marker then
      match marker with
      | Some expected =>
          let reactionTime' := inject_Z now - expected in
          set_playerMetrics
            (set_reactionTime
               (lerp (reactionTime (playerMetrics s)) reactionTime' 0.1)
               (playerMetrics s)) s
      | None => s
      end
    else s
  else s.

(** [updateMetrics(event, data)], lines 58-104. *)
Definition updateMetrics (event : string) (data : option Payload)
    (now now' : Z) (s : Adjuster) : Adjuster :=
  let s := handleEvent event data now s in
  let s := updateSkillLevel s in
  considerAdjustment now' s.

(** [getCurrentSettings()] and [getPlayerMetrics()], lines 222-231: a copy
    of the record, the object itself is unchanged. *)
Definition getCurrentSettings (s : Adjuster) : DifficultySettings :=
  currentSettings s.

Definition getPlayerMetrics (s : Adjuster) : PlayerMetrics :=
  playerMetrics s.

(** [reset()], lines 236-242. *)
Definition reset (s : Adjuster) : Adjuster :=
  let s := set_currentSettings (baseSettings s) s in
  let s := set_adjustmentHistory [] s in
  let s := set_consecutiveFailures 0 s in
  let s := set_consecutiveSuccesses 0 s in
  set_deathCount 0 s.

(** ** Runs of the controller *)

(** A call made by the game loop: [updateMetrics] with the two clock
    readings taken during the call, or [reset]. *)
Inductive Call : Type :=
  | UpdateMetrics (event : string) (data : option Payload) (now now' : Z)
  | Reset.

Definition step (c : Call) (s : Adjuster) : Adjuster :=
  match c with
  | UpdateMetrics event data now now' => updateMetrics event data now now' s
  | Reset => reset s
  end.

(** The object after the calls [cs], made in order on [s]. *)
Fixpoint run (cs : list Call) (s : Adjuster) : Adjuster :=
  match cs with
  | [] => s
  | c :: cs' => run cs' (step c s)
  end.

(** Every object met along the run, the starting one first. *)
Fixpoint states (cs : list Call) (s : Adjuster) : list Adjuster :=
  match cs with
  | [] => [s]
  | c :: cs' => s :: states cs' (step c s)
  end.

(** [adjustDifficulty] is the only writer of the console, so a call applied
    an adjustment exactly when it made the console longer. *)
Definition applied (s s' : Adjuster) : bool :=
  (length (console s) <? length (console s'))%nat.

(** The clock readings at which the calls [cs] applied an adjustment, in
    order: the reading of [considerAdjustment] in each call that did. *)
Fixpoint appliedAt (cs : list Call) (s : Adjuster) : list Z :=
  match cs with
  | [] => []
  | c :: cs' =>
      let s' := step c s in
      match c with
      | UpdateMetrics _ _ _ now' =>
          if applied s s' then now' :: appliedAt cs' s' else appliedAt cs' s'
      | Reset => appliedAt cs' s'
      end
  end.

(** The closed set of event kinds of the interface. *)
Definition knownEvents : list string :=
  ["level_start"; "player_death"; "level_complete"; "ring_collected";
   "power_up_collected"; "player_input"]%string.

(** The baseline that [main-enhanced.ts] passes to the constructor, with
    [GRAVITY_Y] (imported from a module outside the sources) taken as 400,
    the value of the specification's first scenario. *)
Definition baseDifficulty : DifficultySettings :=
  {| enemySpeed := 100;
     enemyCount := 3;
     platformSpacing := 120;
     ringRequirement := 5;
     gravityStrength := 400;
     powerUpFrequency := 0.3 |}.

(** ** The specification's wording of the decision

    These definitions follow the sentences of the specification, not the
    source; the theorems below compare them with the methods above. *)

Module Spec.

(** A rule of the decision: when it fires, and the direction and
    intensity it asks for. *)
Record Rule : Type := {
  fires : Adjuster -> bool;
  verdict : Adjuster -> Direction * Q
}.

(** "if frustrationLevel > 0.7 OR successRate < 0.4 OR
    consecutiveFailures > 3 -> decrease, intensity =
    min(frustrationLevel, 0.2)" *)
Definition relief : Rule :=
  {| fires := fun s =>
       gt (frustrationLevel (playerMetrics s)) 0.7
       || lt (successRate (playerMetrics s)) 0.4
       || (consecutiveFailures s >? 3)%Z;
     verdict := fun s =>
       (decrease, Qmin (frustrationLevel (playerMetrics s)) 0.2) |}.

(** "engagementScore < 0.4 OR successRate > 0.9 OR
    consecutiveSuccesses > 5 -> increase, intensity = 0.15 if
    successRate > 0.9 else 0.1" *)
Definition challenge : Rule :=
  {| fires := fun s =>
       lt (engagementScore (playerMetrics s)) 0.4
       || gt (successRate (playerMetrics s)) 0.9
       || (consecutiveSuccesses s >? 5)%Z;
     verdict := fun s =>
       (increase,
        if gt (successRate (playerMetrics s)) 0.9 then 0.15 else 0.1) |}.

(** "|skillLevel - 0.5| > 0.2 -> direction follows sign of
    (skillLevel - 0.5); intensity = |skillLevel - 0.5| * 0.1" *)
Definition skillMatching : Rule :=
  {| fires := fun s =>
       gt (Qabs (skillLevel (playerMetrics s) - 0.5)) 0.2;
     verdict := fun s =>
       (match skillLevel (playerMetrics s) - 0.5 ?= 0 with
        | Gt => increase
        | _ => decrease
        end,
        Qabs (skillLevel (playerMetrics s) - 0.5) * 0.1) |}.

(** The three rules in their priority order. *)
Definition rules : list Rule := [relief; challenge; skillMatching].

(** "first match wins"; [None] is "no adjustment". *)
Fixpoint firstMatch (rs : list Rule) (s : Adjuster)
    : option (Direction * Q) :=
  match rs with
  | [] => None
  | r :: rs' => if fires r s then Some (verdict r s) else firstMatch rs' s
  end.

End Spec.

(** ** The engagement update on IEEE doubles

    The same lines 115-122 and 215-217 read over binary64 numbers, for the
    one call [updateEngagementScore(0, 0, 0.05)] of [power_up_collected];
    it serves to replay a run with the rounding of the engine. *)

Module Double.

Definition lerp (a b t : float) : float := (a + (b - a) * t)%float.

Definition Math_max (a b : float) : float :=
  if PrimFloat.ltb a b then b else a.

Definition updateEngagementScore (levelTime attempts bonus : float)
    (engagementScore : float) : float :=
  let timeScore := Math_max 0 (1 - levelTime / 60000)%float in
  let attemptScore := Math_max 0 (1 - attempts / 5)%float in
  let newEngagement := ((timeScore + attemptScore) / 2 + bonus)%float in
  lerp engagementScore newEngagement 0.3.

(** engagementScore after [n] [power_up_collected] events. *)
Fixpoint powerUps (n : nat) (engagementScore : float) : float :=
  match n with
  | O => engagementScore
  | S n' => powerUps n' (updateEngagementScore 0 0 0.05 engagementScore)
  end.

End Double.

(** ** Applying an adjustment on IEEE doubles

    [adjustDifficulty] and [clampSettings], lines 178-213, read over the
    numbers the engine computes with: a [number] is a binary64 value, and
    [+], [-] and [*] round to nearest, ties to even, as the operations of
    Rocq's primitive floats do.  The state is the part of the instance
    that [adjustDifficulty] reads or writes: the current settings, the
    history and the console. *)

Module Binary64.

(** [Math.floor].  NaN, the infinities and the zeros are returned as they
    are, and so is a number whose exponent leaves no fractional bit.
    Otherwise the number is [m * 2^e] with [e < 0], up to its sign: the
    whole part of [m / 2^-e] is kept, one more in magnitude for a negative
    number with a fractional part; a positive number below 1 gives [+0]. *)
Definition Math_floor (x : float) : float :=
  match FloatOps.Prim2SF x with
  | S754_finite s m e =>
      if (0 <=? e)%Z then x
      else
        let d := (2 ^ (- e))%Z in
        let q := (Zpos m / d)%Z in
        let r := (Zpos m mod d)%Z in
        let n := if s then (if (r =? 0)%Z then q else (q + 1)%Z) else q in
        match n with
        | Zpos p => FloatOps.SF2Prim (S754_finite s p 0)
        | _ => if s then neg_zero else zero
        end
  | _ => x
  end.

(** [Math.ceil(x)] is [-Math.floor(-x)], also for the sign of a zero. *)
Definition Math_ceil (x : float) : float := (- Math_floor (- x))%float.

Definition isNegativeZero (x : float) : bool :=
  match classify x with
  | NZero => true
  | _ => false
  end.

(** [Math.max] of two numbers: NaN if either is NaN, and [+0] is larger
    than [-0]. *)
Definition Math_max (a b : float) : float :=
  if (a <? b)%float then b
  else if (b <? a)%float then a
  else if (a =? b)%float then (if isNegativeZero a then b else a)
  else nan.

(** [Math.min] of two numbers: NaN if either is NaN, and [-0] is smaller
    than [+0]. *)
Definition Math_min (a b : float) : float :=
  if (a <? b)%float then a
  else if (b <? a)%float then b
  else if (a =? b)%float then (if isNegativeZero b then b else a)
  else nan.

Record DifficultySettings : Type := {
  enemySpeed : float;
  enemyCount : float;
  platformSpacing : float;
  ringRequirement : float;
  gravityStrength : float;
  powerUpFrequency : float
}.

(** One line written by [console.log]: the direction and the intensity
    that the message formats. *)
Record LogLine : Type := {
  logDirection : Direction;
  logIntensity : float
}.

Record Adjuster : Type := {
  currentSettings : DifficultySettings;
  adjustmentHistory : list float;
  console : list LogLine
}.

Definition set_enemySpeed (v : float) (c : DifficultySettings)
    : DifficultySettings :=
  {| enemySpeed := v;
     enemyCount := enemyCount c;
     platformSpacing := platformSpacing c;
     ringRequirement := ringRequirement c;
     gravityStrength := gravityStrength c;
     powerUpFrequency := powerUpFrequency c |}.

Definition set_enemyCount (v : float) (c : DifficultySettings)
    : DifficultySettings :=
  {| enemySpeed := enemySpeed c;
     enemyCount := v;
     platformSpacing := platformSpacing c;
     ringRequirement := ringRequirement c;
     gravityStrength := gravityStrength c;
     powerUpFrequency := powerUpFrequency c |}.

Definition set_platformSpacing (v : float) (c : DifficultySettings)
    : DifficultySettings :=
  {| enemySpeed := enemySpeed c;
     enemyCount := enemyCount c;
     platformSpacing := v;
     ringRequirement := ringRequirement c;
     gravityStrength := gravityStrength c;
     powerUpFrequency := powerUpFrequency c |}.

Definition set_gravityStrength (v : float) (c : DifficultySettings)
    : DifficultySettings :=
  {| enemySpeed := enemySpeed c;
     enemyCount := enemyCount c;
     platformSpacing := platformSpacing c;
     ringRequirement := ringRequirement c;
     gravityStrength := v;
     powerUpFrequency := powerUpFrequency c |}.

Definition set_powerUpFrequency (v : float) (c : DifficultySettings)
    : DifficultySettings :=
  {| enemySpeed := enemySpeed c;
     enemyCount := enemyCount c;
     platformSpacing := platformSpacing c;
     ringRequirement := ringRequirement c;
     gravityStrength := gravityStrength c;
     powerUpFrequency := v |}.

Definition set_currentSettings (c : DifficultySettings) (s : Adjuster)
    : Adjuster :=
  {| currentSettings := c;
     adjustmentHistory := adjustmentHistory s;
     console := console s |}.

Definition set_adjustmentHistory (h : list float) (s : Adjuster)
    : Adjuster :=
  {| currentSettings := currentSettings s;
     adjustmentHistory := h;
     console := console s |}.

Definition set_console (l : list LogLine) (s : Adjuster) : Adjuster :=
  {| currentSettings := currentSettings s;
     adjustmentHistory := adjustmentHistory s;
     console := l |}.

(** [clampSettings()], lines 207-213. *)
Definition clampSettings (s : Adjuster) : Adjuster :=
  let c := currentSettings s in
  let c :=
    set_enemySpeed (Math_max 50 (Math_min 300 (enemySpeed c)))%float c in
  let c :=
    set_enemyCount (Math_max 1 (Math_min 10 (enemyCount c)))%float c in
  let c :=
    set_platformSpacing
      (Math_max 50 (Math_min 200 (platformSpacing c)))%float c in
  let c :=
    set_gravityStrength
      (Math_max 300 (Math_min 800 (gravityStrength c)))%float c in
  let c :=
    set_powerUpFrequency
      (Math_max 0.1 (Math_min 1 (powerUpFrequency c)))%float c in
  set_currentSettings c s.

(** [adjustDifficulty(direction, intensity)], lines 178-205.  The history
    keeps the most recent entry last; [shift()] drops the head. *)
Definition adjustDifficulty (direction : Direction) (intensity : float)
    (s : Adjuster) : Adjuster :=
  let multiplier :=
    match direction with
    | increase => (1 + intensity)%float
    | decrease => (1 - intensity)%float
    end in
  let c := currentSettings s in
  let c := set_enemySpeed (enemySpeed c * multiplier)%float c in
  let c := set_gravityStrength (gravityStrength c * multiplier)%float c in
  let c :=
    match direction with
    | increase =>
        let c :=
          set_enemyCount
            (Math_min 10 (Math_ceil (enemyCount c * multiplier)))%float c in
        let c := set_platformSpacing (platformSpacing c * 1.1)%float c in
        set_powerUpFrequency (powerUpFrequency c * 0.9)%float c
    | decrease =>
        let c :=
          set_enemyCount
            (Math_max 1 (Math_floor (enemyCount c * multiplier)))%float c in
        let c := set_platformSpacing (platformSpacing c * 0.9)%float c in
        set_powerUpFrequency (powerUpFrequency c * 1.1)%float c
    end in
  let s := clampSettings (set_currentSettings c s) in
  let pushed :=
    adjustmentHistory s ++
    [match direction with
     | increase => intensity
     | decrease => (- intensity)%float
     end] in
  let s :=
    set_adjustmentHistory
      (if (10 <? length pushed)%nat then tl pushed else pushed) s in
  set_console
    (console s ++
     [{| logDirection := direction; logIntensity := intensity |}]) s.

(** The baseline of [main-enhanced.ts], as above. *)
Definition baseDifficulty : DifficultySettings :=
  {| enemySpeed := 100;
     enemyCount := 3;
     platformSpacing := 120;
     ringRequirement := 5;
     gravityStrength := 400;
     powerUpFrequency := 0.3 |}.

(** An instance just constructed on [baseDifficulty]: the settings are the
    baseline, the history and the console are empty. *)
Definition fresh : Adjuster :=
  {| currentSettings := baseDifficulty;
     adjustmentHistory := [];
     console := [] |}.

(** *** The specification's wording of the application

    These definitions follow the sentences of the specification, not the
    source; the theorem of the application compares them with
    [adjustDifficulty] above. *)

Module Spec.

(** "multiplier = 1+intensity (increase) or 1-intensity (decrease)" *)
Definition multiplier (d : Direction) (i : float) : float :=
  match d with
  | increase => (1 + i)%float
  | decrease => (1 - i)%float
  end.

(** "capped at" [hi]. *)
Definition cappedAt (hi x : float) : float :=
  if (hi <? x)%float then hi else x.

(** "floored at" [lo]. *)
Definition flooredAt (lo x : float) : float :=
  if (x <? lo)%float then lo else x.

(** A value brought back into the range from [lo] to [hi]. *)
Definition clamp (lo hi x : float) : float :=
  if (x <? lo)%float then lo
  else if (hi <? x)%float then hi
  else x.

(** "After scaling, every field is clamped to its legal range". *)
Definition clampAll (c : DifficultySettings) : DifficultySettings :=
  {| enemySpeed := clamp 50 300 (enemySpeed c);
     enemyCount := clamp 1 10 (enemyCount c);
     platformSpacing := clamp 50 200 (platformSpacing c);
     ringRequirement := ringRequirement c;
     gravityStrength := clamp 300 800 (gravityStrength c);
     powerUpFrequency := clamp 0.1 1 (powerUpFrequency c) |}.

(** The scaling of the "Application" paragraph, before the clamp. *)
Definition scale (d : Direction) (i : float) (c : DifficultySettings)
    : DifficultySettings :=
  match d with
  | increase =>
      {| enemySpeed := (enemySpeed c * multiplier d i)%float;
         enemyCount :=
           cappedAt 10 (Math_ceil (enemyCount c * multiplier d i)%float);
         platformSpacing := (platformSpacing c * 1.1)%float;
         ringRequirement := ringRequirement c;
         gravityStrength := (gravityStrength c * multiplier d i)%float;
         powerUpFrequency := (powerUpFrequency c * 0.9)%float |}
  | decrease =>
      {| enemySpeed := (enemySpeed c * multiplier d i)%float;
         enemyCount :=
           flooredAt 1 (Math_floor (enemyCount c * multiplier d i)%float);
         platformSpacing := (platformSpacing c * 0.9)%float;
         ringRequirement := ringRequirement c;
         gravityStrength := (gravityStrength c * multiplier d i)%float;
         powerUpFrequency := (powerUpFrequency c * 1.1)%float |}
  end.

End Spec.

(** The order of two positive finite numbers, read from their exponents
    and mantissas as [SpecFloat] normalises them. *)
Definition lex (e1 : Z) (m1 : positive) (e2 : Z) (m2 : positive)
    : comparison :=
  match (e1 ?= e2)%Z with
  | Lt => Lt
  | Gt => Gt
  | Eq => Pos.compare_cont Eq m1 m2
  end.

End Binary64.

(** ** Predicates of the claims *)

(** The documented range of each clamped setting. *)
Definition withinRanges (c : DifficultySettings) : Prop :=
  (50 <= enemySpeed c <= 300)
  /\ (1 <= enemyCount c <= 10)
  /\ (50 <= platformSpacing c <= 200)
  /\ (300 <= gravityStrength c <= 800)
  /\ (0.1 <= powerUpFrequency c <= 1).

(** Two settings records with equal numbers in every field. *)
Definition sameSettings (c c' : DifficultySettings) : Prop :=
  enemySpeed c == enemySpeed c'
  /\ enemyCount c == enemyCount c'
  /\ platformSpacing c == platformSpacing c'
  /\ ringRequirement c == ringRequirement c'
  /\ gravityStrength c == gravityStrength c'
  /\ powerUpFrequency c == powerUpFrequency c'.

(** A number in the unit interval. *)
Definition inUnit (x : Q) : Prop := 0 <= x <= 1.

(** successRate and frustrationLevel lie in the unit interval, and
    deathCount is not negative. *)
Definition ratesInUnit (s : Adjuster) : Prop :=
  inUnit (successRate (playerMetrics s))
  /\ inUnit (frustrationLevel (playerMetrics s))
  /\ (0 <= deathCount s)%Z.

(** The time between two applied adjustments respects the cooldown. *)
Definition cooledDown (t u : Z) : Prop := (ADJUSTMENT_COOLDOWN <= u - t)%Z.

(** A [power_up_collected] event. *)
Definition powerUp (now now' : Z) : Call :=
  UpdateMetrics "power_up_collected" None now now'.

(** A [player_death] event. *)
Definition death (now now' : Z) : Call :=
  UpdateMetrics "player_death" None now now'.

(** A baseline outside the documented ranges: enemies ten times as fast as
    in [baseDifficulty]. *)
Definition fastBaseline : DifficultySettings :=
  set_enemySpeed 1000 baseDifficulty.

(** ** Concrete runs used as examples *)

(** The controller of the game right after construction. *)
Definition fresh : Adjuster := constructor baseDifficulty.

(** Four deaths in a row, one millisecond apart; the fourth one triggers
    the first adjustment, at clock reading 100003. *)
Definition fourDeaths : list Call :=
  [death 100000 100000; death 100001 100001;
   death 100002 100002; death 100003 100003].

Definition frustrated : Adjuster := run fourDeaths fresh.

(** A fifth death one millisecond later, inside the cooldown. *)
Definition overwhelmed : Adjuster :=
  run (fourDeaths ++ [death 100004 100004]) fresh.

(** Six power-ups in a row, one second apart. *)
Definition sixPowerUps : list Call :=
  [powerUp 1000 1000; powerUp 2000 2000; powerUp 3000 3000;
   powerUp 4000 4000; powerUp 5000 5000; powerUp 6000 6000].

(** A [player_input] payload with the given marker. *)
Definition marked (t : Q) : option Payload :=
  Some {| expectedTime := Some t |}.

(** A [player_input] payload without a marker. *)
Definition unmarked : option Payload :=
  Some {| expectedTime := None |}.

(** A [level_start] event. *)
Definition levelStart (now now' : Z) : Call :=
  UpdateMetrics "level_start" None now now'.

(** ** Introspection and bookkeeping of the controller *)

(** The object [consecutive] of [getDebugInfo]. *)
Record Consecutive : Type := {
  failures : Z;
  successes : Z
}.

(** The object returned by [getDebugInfo]. *)
Record DebugInfo : Type := {
  metrics : PlayerMetrics;
  settings : DifficultySettings;
  consecutive : Consecutive;
  adjustments : nat
}.

(** [getDebugInfo()], lines 247-257. *)
Definition getDebugInfo (s : Adjuster) : DebugInfo :=
  {| metrics := playerMetrics s;
     settings := currentSettings s;
     consecutive :=
       {| failures := consecutiveFailures s;
          successes := consecutiveSuccesses s |};
     adjustments := length (adjustmentHistory s) |}.

(** The entry that [adjustDifficulty] pushes on the history, line 199:
    [direction === 'increase' ? intensity : -intensity]. *)
Definition signedIntensity (d : Direction) (i : Q) : Q :=
  match d with
  | increase => i
  | decrease => - i
  end.

(** The last [n] elements of a list. *)
Definition lastn {A : Type} (n : nat) (l : list A) : list A :=
  skipn (length l - n) l.

(** The line that [console.log] wrote last, if any. *)
Definition lastLine (s : Adjuster) : option LogLine :=
  last (map Some (console s)) None.

(** The signed intensities of the adjustments that the calls [cs] apply,
    oldest first, starting over at each [reset()]; [acc] holds those
    applied before [cs].  The intensity and direction of an adjustment are
    read off the line it writes to the console. *)
Fixpoint signedSinceReset (acc : list Q) (cs : list Call) (s : Adjuster)
    : list Q :=
  match cs with
  | [] => acc
  | c :: cs' =>
      let s' := step c s in
      match c with
      | UpdateMetrics _ _ _ _ =>
          if applied s s' then
            match lastLine s' with
            | Some line =>
                signedSinceReset
                  (acc ++ [signedIntensity (logDirection line)
                             (logIntensity line)]) cs' s'
            | None => signedSinceReset acc cs' s'
            end
          else signedSinceReset acc cs' s'
      | Reset => signedSinceReset [] cs' s'
      end
  end.

(** A call whose [expectedTime] marker, if it carries one, is not later
    than the clock reading of the call: the reaction sample
    [now - expectedTime] is not negative. *)
Definition punctual (c : Call) : Prop :=
  match c with
  | UpdateMetrics _ (Some {| expectedTime := Some t |}) now _ =>
      t <= inject_Z now
  | _ => True
  end.

(** Clock readings (those of line 59) that never run backwards, starting
    from the reading [t]. *)
Fixpoint clockFrom (t : Z) (cs : list Call) : Prop :=
  match cs with
  | [] => True
  | UpdateMetrics _ _ now _ :: cs' => (t <= now)%Z /\ clockFrom now cs'
  | Reset :: cs' => clockFrom t cs'
  end.

(** The event kind of a call, [None] for [reset()]. *)
Definition eventOf (c : Call) : option string :=
  match c with
  | UpdateMetrics event _ _ _ => Some event
  | Reset => None
  end.

(** A call that is not a [power_up_collected] event. *)
Definition notPowerUp (c : Call) : Prop :=
  eventOf c <> Some "power_up_collected"%string.

(** A call that is neither [level_start] nor [reset()]: it leaves
    deathCount alone or adds a death. *)
Definition withinLevel (c : Call) : Prop :=
  eventOf c <> None /\ eventOf c <> Some "level_start"%string.

(** The number of [player_death] events among the calls. *)
Definition deathsIn (cs : list Call) : Z :=
  Z.of_nat
    (length
       (filter
          (fun c =>
             match eventOf c with
             | Some event => (event =? "player_death")%string
             | None => false
             end) cs)).

(** The part of the state that the skill estimate relies on: the two rates
    in the unit interval, counters and reactionTime not negative, and
    skillLevel itself in the unit interval. *)
Definition wellBehaved (s : Adjuster) : Prop :=
  ratesInUnit s
  /\ (0 <= consecutiveSuccesses s)%Z
  /\ 0 <= reactionTime (playerMetrics s)
  /\ inUnit (skillLevel (playerMetrics s)).

(** An intensity of at most 20%. *)
Definition moderate (i : Q) : Prop := 0 <= i <= 0.2.

(** A key pressed at clock reading 100000 whose marker was taken 10 ms
    before, followed by the four deaths. *)
Definition keyThenDeaths : list Call :=
  UpdateMetrics "player_input" (marked 99990) 100000 100000 :: fourDeaths.

(** ** The callers in [main-enhanced.ts] *)

(** The call of the [keydown] handler, line 454:
    [updateMetrics('player_input', { expectedTime: Date.now() })].  [t] is
    the clock reading taken for the marker, just before the call. *)
Definition keyDown (t now now' : Z) : Call :=
  UpdateMetrics "player_input" (marked (inject_Z t)) now now'.

(** A key press whose marker and whose call read the same millisecond. *)
Definition sameMillisecond (c : Call) : Prop :=
  exists t now', t <> 0%Z /\ c = keyDown t t now'.

(** Two key presses, at 100000 and at 100250. *)
Definition twoKeys : list Call :=
  [keyDown 100000 100000 100000; keyDown 100250 100250 100250].

(** ** The game state manager, [gameState.ts]

    Lives, level and collected rings only ever hold whole numbers and are
    integers.  The score is a sum of numbers given by the caller and is a
    binary64 number, added as the engine adds; the ring total is only
    stored and compared, and is a rational. *)

Module GameStateManager.

Record GameState : Type := {
  score : float;
  lives : Z;
  level : Z;
  ringsCollected : Z;
  totalRings : Q
}.

(** The field initialiser, also the state that [reset()] restores. *)
Definition initial : GameState :=
  {| score := 0%float; lives := 3; level := 1; ringsCollected := 0;
     totalRings := 0 |}.

(** [getState()]: a copy of the state. *)
Definition getState (g : GameState) : GameState := g.

(** [addScore(points)]. *)
Definition addScore (points : float) (g : GameState) : GameState :=
  {| score := (score g + points)%float;
     lives := lives g;
     level := level g;
     ringsCollected := ringsCollected g;
     totalRings := totalRings g |}.

(** [collectRing()]. *)
Definition collectRing (g : GameState) : GameState :=
  let g :=
    {| score := score g;
       lives := lives g;
       level := level g;
       ringsCollected := (ringsCollected g + 1)%Z;
       totalRings := totalRings g |} in
  addScore 100%float g.

(** [loseLife()]: the returned boolean and the state after the call. *)
Definition loseLife (g : GameState) : bool * GameState :=
  let g :=
    {| score := score g;
       lives := (lives g - 1)%Z;
       level := level g;
       ringsCollected := ringsCollected g;
       totalRings := totalRings g |} in
  ((0 <? lives g)%Z, g).

(** [addLife()]. *)
Definition addLife (g : GameState) : GameState :=
  if (lives g <? 5)%Z then
    {| score := score g;
       lives := (lives g + 1)%Z;
       level := level g;
       ringsCollected := ringsCollected g;
       totalRings := totalRings g |}
  else g.

(** [nextLevel()]. *)
Definition nextLevel (g : GameState) : GameState :=
  let g :=
    {| score := score g;
       lives := lives g;
       level := (level g + 1)%Z;
       ringsCollected := 0;
       totalRings := totalRings g |} in
  addScore 500%float g.

(** [setTotalRings(count)]. *)
Definition setTotalRings (count : Q) (g : GameState) : GameState :=
  {| score := score g;
     lives := lives g;
     level := level g;
     ringsCollected := ringsCollected g;
     totalRings := count |}.

(** [allRingsCollected()]. *)
Definition allRingsCollected (g : GameState) : bool :=
  Qle_bool (totalRings g) (inject_Z (ringsCollected g)).

(** [reset()]. *)
Definition reset (g : GameState) : GameState := initial.

(** [resetLevel()]. *)
Definition resetLevel (g : GameState) : GameState :=
  {| score := score g;
     lives := lives g;
     level := level g;
     ringsCollected := 0;
     totalRings := totalRings g |}.

(** A call that changes the state. *)
Inductive Op : Type :=
  | AddScore (points : float)
  | CollectRing
  | LoseLife
  | AddLife
  | NextLevel
  | SetTotalRings (count : Q)
  | Reset
  | ResetLevel.

Definition apply (o : Op) (g : GameState) : GameState :=
  match o with
  | AddScore points => addScore points g
  | CollectRing => collectRing g
  | LoseLife => snd (loseLife g)
  | AddLife => addLife g
  | NextLevel => nextLevel g
  | SetTotalRings count => setTotalRings count g
  | Reset => reset g
  | ResetLevel => resetLevel g
  end.

(** The state after the calls [os], made in order on [g]. *)
Fixpoint play (os : list Op) (g : GameState) : GameState :=
  match os with
  | [] => g
  | o :: os' => play os' (apply o g)
  end.

(** The points that a call adds to the score, if it adds any. *)
Definition pointsOf (o : Op) : list float :=
  match o with
  | AddScore points => [points]
  | CollectRing => [100%float]
  | NextLevel => [500%float]
  | _ => []
  end.

(** The points of a sequence of calls, in the order of the calls. *)
Definition pointsIn (os : list Op) : list float := flat_map pointsOf os.

(** The boolean that [loseLife()] returns when it is called after [k]
    earlier calls of it. *)
Fixpoint nthLoseLife (k : nat) (g : GameState) : bool :=
  match k with
  | O => fst (loseLife g)
  | S k' => nthLoseLife k' (snd (loseLife g))
  end.

End GameStateManager.

(** ** The object pool, [systems/ObjectPool.ts]

    Objects are compared by identity, here a decidable equality on [T].
    The [factory] callback is the sequence of objects it returns, [factory
    n] being the object of its call number [n]; the calls of the [reset]
    callback are logged.  The array [pool] is only pushed and popped at its
    end, and is kept as a list whose head is that end; the set [active] is
    a list without repetitions in insertion order. *)

Module ObjectPool.

Section Pool.

Variable T : Type.
Variable eq_dec : forall a b : T, {a = b} + {a <> b}.
Variable factory : nat -> T.

Record ObjectPool : Type := {
  pool : list T;
  active : list T;
  maxSize : Z;
  made : nat;
  resetCalls : list T
}.

(** [Set.prototype.add]. *)
Definition setAdd (obj : T) (set : list T) : list T :=
  if in_dec eq_dec obj set then set else set ++ [obj].

(** [Set.prototype.delete]. *)
Definition setDelete (obj : T) (set : list T) : list T :=
  remove eq_dec obj set.

(** [Set.prototype.has]. *)
Definition setHas (obj : T) (set : list T) : bool :=
  if in_dec eq_dec obj set then true else false.

(** The loop of the constructor: [n] calls of the factory, each pushed. *)
Fixpoint preallocate (n : nat) (s : ObjectPool) : ObjectPool :=
  match n with
  | O => s
  | S n' =>
      preallocate n'
        {| pool := factory (made s) :: pool s;
           active := active s;
           maxSize := maxSize s;
           made := S (made s);
           resetCalls := resetCalls s |}
  end.

(** [constructor(factory, reset, initialSize, maxSize)]; [initialSize] is
    the number of turns of the loop. *)
Definition constructor (initialSize : nat) (maxSize : Z) : ObjectPool :=
  preallocate initialSize
    {| pool := []; active := []; maxSize := maxSize; made := 0;
       resetCalls := [] |}.

(** [get()]: the object returned and the pool after the call. *)
Definition get (s : ObjectPool) : T * ObjectPool :=
  match pool s with
  | obj :: rest =>
      (obj,
       {| pool := rest;
          active := setAdd obj (active s);
          maxSize := maxSize s;
          made := made s;
          resetCalls := resetCalls s |})
  | [] =>
      let obj := factory (made s) in
      (obj,
       {| pool := [];
          active := setAdd obj (active s);
          maxSize := maxSize s;
          made := S (made s);
          resetCalls := resetCalls s |})
  end.

(** The last three statements of [release] and the body of the loop of
    [releaseAll]: reset the object and push it if there is room. *)
Definition giveBack (obj : T) (s : ObjectPool) : ObjectPool :=
  {| pool :=
       if (Z.of_nat (length (pool s)) <? maxSize s)%Z
       then obj :: pool s
       else pool s;
     active := active s;
     maxSize := maxSize s;
     made := made s;
     resetCalls := resetCalls s ++ [obj] |}.

(** [release(obj)]. *)
Definition release (obj : T) (s : ObjectPool) : ObjectPool :=
  if negb (setHas obj (active s)) then s
  else
    giveBack obj
      {| pool := pool s;
         active := setDelete obj (active s);
         maxSize := maxSize s;
         made := made s;
         resetCalls := resetCalls s |}.

(** [releaseAll()]. *)
Definition releaseAll (s : ObjectPool) : ObjectPool :=
  let s' := fold_left (fun acc obj => giveBack obj acc) (active s) s in
  {| pool := pool s';
     active := [];
     maxSize := maxSize s';
     made := made s';
     resetCalls := resetCalls s' |}.

(** The object returned by [getStats()]. *)
Record Stats : Type := {
  pooled : nat;
  activeCount : nat;
  total : nat
}.

(** [getStats()]. *)
Definition getStats (s : ObjectPool) : Stats :=
  {| pooled := length (pool s);
     activeCount := length (active s);
     total := length (pool s) + length (active s) |}.

(** A call that changes the pool. *)
Inductive Op : Type :=
  | Get
  | Release (obj : T)
  | ReleaseAll.

Definition apply (o : Op) (s : ObjectPool) : ObjectPool :=
  match o with
  | Get => snd (get s)
  | Release obj => release obj s
  | ReleaseAll => releaseAll s
  end.

(** The pool after the calls [os], made in order on [s]. *)
Fixpoint play (os : list Op) (s : ObjectPool) : ObjectPool :=
  match os with
  | [] => s
  | o :: os' => play os' (apply o s)
  end.

(** Every object held, pooled or active, came from one of the first
    [made] calls of the factory, and none is held twice. *)
Definition tidy (s : ObjectPool) : Prop :=
  NoDup (pool s ++ active s)
  /\ forall obj, In obj (pool s ++ active s) ->
       exists n, (n < made s)%nat /\ obj = factory n.

End Pool.

End ObjectPool.

(** A pool of numbered objects: the factory's call number [n] returns the
    object [n]; two objects are preallocated and at most three are kept. *)
Definition numbered (n : nat) : nat := n.

Definition smallPool : ObjectPool.ObjectPool nat :=
  ObjectPool.constructor nat numbered 2 3.

(** The same pool after one [get()], which hands out object 1. *)
Definition oneOut : ObjectPool.ObjectPool nat :=
  snd (ObjectPool.get nat Nat.eq_dec numbered smallPool).

(** * Properties *)

(** ** Comparisons and [Math] functions *)

Lemma lt_true_iff (a b : Q) : lt a b = true <-> a < b.
Proof.
  unfold lt. destruct (Qlt_le_dec a b) as [H | H]; split; intro H';
    try reflexivity; try assumption; try discriminate.
  exfalso. apply (Qlt_not_le _ _ H'). exact H.
Qed.

Lemma gt_true_iff (a b : Q) : gt a b = true <-> b < a.
Proof. unfold gt. apply lt_true_iff. Qed.

Lemma Math_max_bounds (lo x : Q) : lo <= Math_max lo x /\ x <= Math_max lo x.
Proof. unfold Math_max. destruct (Qlt_le_dec lo x); split; lra. Qed.

Lemma Math_min_bounds (hi x : Q) : Math_min hi x <= hi /\ Math_min hi x <= x.
Proof. unfold Math_min. destruct (Qlt_le_dec x hi); split; lra. Qed.

(** [Math.max(lo, Math.min(hi, x))] lands between [lo] and [hi]. *)
Lemma clamped_between (lo hi x : Q) :
  lo <= hi -> lo <= Math_max lo (Math_min hi x) <= hi.
Proof.
  intro Hlh. unfold Math_max, Math_min.
  destruct (Qlt_le_dec x hi); destruct (Qlt_le_dec lo _); split; lra.
Qed.

(** ... and is the number itself when that already lies there. *)
Lemma clamped_inside (lo hi x : Q) :
  lo <= x <= hi -> Math_max lo (Math_min hi x) == x.
Proof.
  intros [Hl Hh]. unfold Math_max, Math_min.
  destruct (Qlt_le_dec x hi); destruct (Qlt_le_dec lo _); lra.
Qed.

Lemma Math_min_is_Qmin (a b : Q) : Math_min a b = Qmin a b.
Proof.
  unfold Math_min, Qmin, GenericMinMax.gmin.
  destruct (Qlt_le_dec b a) as [H | H].
  - rewrite (proj1 (Qgt_alt a b) H). reflexivity.
  - pose proof (proj1 (Qle_alt a b) H) as H'.
    destruct (a ?= b); try reflexivity.
    exfalso. apply H'. reflexivity.
Qed.

Lemma Math_max_is_Qmax (a b : Q) : Math_max a b = Qmax a b.
Proof.
  unfold Math_max, Qmax, GenericMinMax.gmax.
  destruct (Qlt_le_dec a b) as [H | H].
  - rewrite (proj1 (Qlt_alt a b) H). reflexivity.
  - pose proof (proj1 (Qge_alt a b) H) as H'.
    destruct (a ?= b); try reflexivity.
    exfalso. apply H'. reflexivity.
Qed.

Lemma Math_abs_is_Qabs (a : Q) : Math_abs a = Qabs a.
Proof.
  unfold Math_abs. destruct a as [n d].
  destruct (Qlt_le_dec (n # d) 0) as [H | H];
    unfold Qlt, Qle in H; simpl in H; unfold Qabs, Qopp; simpl;
    f_equal; lia.
Qed.

(** A convex step between two numbers of the unit interval stays there. *)
Lemma lerp_inUnit (a b t : Q) :
  inUnit a -> inUnit b -> inUnit t -> inUnit (lerp a b t).
Proof. unfold inUnit, lerp. intros Ha Hb Ht. split; nra. Qed.

(** ** What each method leaves alone *)

(** Splits [considerAdjustment] along its two tests. *)
Ltac consider_cases :=
  unfold considerAdjustment;
  match goal with
  | |- context [(?a <? ?b)%Z] => destruct (a <? b)%Z eqn:?
  end;
  cbv beta iota zeta;
  try match goal with
  | |- context [adjust ?d] => destruct (adjust d) eqn:?
  end.

Lemma adjustDifficulty_playerMetrics d i s :
  playerMetrics (adjustDifficulty d i s) = playerMetrics s.
Proof. reflexivity. Qed.

Lemma adjustDifficulty_baseSettings d i s :
  baseSettings (adjustDifficulty d i s) = baseSettings s.
Proof. reflexivity. Qed.

Lemma adjustDifficulty_console d i s :
  console (adjustDifficulty d i s)
  = console s ++ [{| logDirection := d; logIntensity := i |}].
Proof. reflexivity. Qed.

Lemma adjustDifficulty_applied d i s :
  applied s (adjustDifficulty d i s) = true.
Proof.
  unfold applied. rewrite adjustDifficulty_console, length_app. simpl.
  apply Nat.ltb_lt. lia.
Qed.

Lemma applied_same s : applied s s = false.
Proof. unfold applied. apply Nat.ltb_irrefl. Qed.

Lemma considerAdjustment_playerMetrics now s :
  playerMetrics (considerAdjustment now s) = playerMetrics s.
Proof. consider_cases; reflexivity. Qed.

Lemma considerAdjustment_baseSettings now s :
  baseSettings (considerAdjustment now s) = baseSettings s.
Proof. consider_cases; reflexivity. Qed.

Lemma considerAdjustment_counters now s :
  deathCount (considerAdjustment now s) = deathCount s
  /\ consecutiveFailures (considerAdjustment now s) = consecutiveFailures s
  /\ consecutiveSuccesses (considerAdjustment now s) = consecutiveSuccesses s
  /\ levelStartTime (considerAdjustment now s) = levelStartTime s
  /\ lastActionTime (considerAdjustment now s) = lastActionTime s.
Proof. consider_cases; repeat split; reflexivity. Qed.

(** The two ways out of [considerAdjustment]: nothing happens, or the gate
    was open, an adjustment was applied and its time recorded. *)
Lemma considerAdjustment_cases now s :
  (considerAdjustment now s = s
   /\ applied s (considerAdjustment now s) = false)
  \/ ((ADJUSTMENT_COOLDOWN <= now - lastAdjustmentTime s)%Z
      /\ adjust (shouldAdjustDifficulty s) = true
      /\ considerAdjustment now s
         = set_lastAdjustmentTime now
             (adjustDifficulty (direction (shouldAdjustDifficulty s))
                (intensity (shouldAdjustDifficulty s)) s)
      /\ lastAdjustmentTime (considerAdjustment now s) = now
      /\ applied s (considerAdjustment now s) = true).
Proof.
  unfold considerAdjustment.
  destruct (now - lastAdjustmentTime s <? ADJUSTMENT_COOLDOWN)%Z eqn:Hgate.
  - left. split; [reflexivity | apply applied_same].
  - destruct (adjust (shouldAdjustDifficulty s)) eqn:Hadj.
    + right. apply Z.ltb_ge in Hgate.
      repeat split; try reflexivity; try assumption.
      exact (adjustDifficulty_applied _ _ s).
    + left. split; [reflexivity | apply applied_same].
Qed.

Lemma considerAdjustment_skipped now s :
  (now - lastAdjustmentTime s < ADJUSTMENT_COOLDOWN)%Z ->
  considerAdjustment now s = s.
Proof.
  intro H. unfold considerAdjustment.
  apply Z.ltb_lt in H. rewrite H. reflexivity.
Qed.

Lemma updateSkillLevel_frame s :
  baseSettings (updateSkillLevel s) = baseSettings s
  /\ currentSettings (updateSkillLevel s) = currentSettings s
  /\ adjustmentHistory (updateSkillLevel s) = adjustmentHistory s
  /\ lastAdjustmentTime (updateSkillLevel s) = lastAdjustmentTime s
  /\ deathCount (updateSkillLevel s) = deathCount s
  /\ consecutiveFailures (updateSkillLevel s) = consecutiveFailures s
  /\ consecutiveSuccesses (updateSkillLevel s) = consecutiveSuccesses s
  /\ console (updateSkillLevel s) = console s.
Proof. repeat split; reflexivity. Qed.

(** Splits [handleEvent] along the cases of the [switch]. *)
Ltac event_cases event :=
  unfold handleEvent;
  destruct (event =? "level_start")%string eqn:?;
  [ | destruct (event =? "player_death")%string eqn:?;
  [ | destruct (event =? "level_complete")%string eqn:?;
  [ | destruct (event =? "ring_collected")%string eqn:?;
  [ | destruct (event =? "power_up_collected")%string eqn:?;
  [ | destruct (event =? "player_input")%string eqn:? ]]]]].

Lemma handleEvent_frame event data now s :
  baseSettings (handleEvent event data now s) = baseSettings s
  /\ currentSettings (handleEvent event data now s) = currentSettings s
  /\ adjustmentHistory (handleEvent event data now s) = adjustmentHistory s
  /\ lastAdjustmentTime (handleEvent event data now s) = lastAdjustmentTime s
  /\ console (handleEvent event data now s) = console s.
Proof.
  event_cases event; try (repeat split; reflexivity).
  destruct data as [[[t |]] |]; simpl; try (repeat split; reflexivity).
  destruct (negb (Qeq_bool t 0)); repeat split; reflexivity.
Qed.

(** An event outside the closed set runs no [case]. *)
Lemma handleEvent_unknown event data now s :
  ~ In event knownEvents -> handleEvent event data now s = s.
Proof.
  intro Hout.
  assert (Hne : forall k, In k knownEvents -> (event =? k)%string = false).
  { intros k Hk. apply String.eqb_neq. intro E. apply Hout. rewrite E.
    exact Hk. }
  unfold handleEvent.
  rewrite !Hne; [reflexivity | | | | | | ]; simpl; tauto.
Qed.

(** ** Invariants of a run *)

Lemma step_baseSettings c s : baseSettings (step c s) = baseSettings s.
Proof.
  destruct c as [event data now now' | ]; simpl; [ | reflexivity].
  unfold updateMetrics. rewrite considerAdjustment_baseSettings.
  destruct (updateSkillLevel_frame (handleEvent event data now s)) as [-> _].
  apply handleEvent_frame.
Qed.

Lemma run_baseSettings cs s : baseSettings (run cs s) = baseSettings s.
Proof.
  revert s. induction cs as [ | c cs IH]; intro s; simpl.
  - reflexivity.
  - rewrite IH. apply step_baseSettings.
Qed.

Lemma run_app cs cs' s : run (cs ++ cs') s = run cs' (run cs s).
Proof.
  revert s. induction cs as [ | c cs IH]; intro s; simpl.
  - reflexivity.
  - apply IH.
Qed.

(** ** reset *)

(** C7: in every state reached from construction, [reset()] makes the
    current settings equal to the baseline given to the constructor, empties
    the adjustment history, zeroes consecutiveFailures, consecutiveSuccesses
    and deathCount, leaves the player metrics exactly as they were, and a
    second [reset()] changes nothing more. *)
Theorem reset_restores_baseline_and_keeps_metrics
    (base : DifficultySettings) (cs : list Call) :
  getCurrentSettings (reset (run cs (constructor base))) = base
  /\ adjustmentHistory (reset (run cs (constructor base))) = []
  /\ consecutiveFailures (reset (run cs (constructor base))) = 0%Z
  /\ consecutiveSuccesses (reset (run cs (constructor base))) = 0%Z
  /\ deathCount (reset (run cs (constructor base))) = 0%Z
  /\ getPlayerMetrics (reset (run cs (constructor base)))
     = getPlayerMetrics (run cs (constructor base))
  /\ reset (reset (run cs (constructor base)))
     = reset (run cs (constructor base)).
Proof.
  repeat split.
  unfold getCurrentSettings, reset. simpl.
  rewrite run_baseSettings. reflexivity.
Qed.

(** C9: [reset()] leaves lastAdjustmentTime as it was, so the cooldown of
    the last adjustment applied before the reset still holds after it: an
    event whose clock reading is less than 10,000 ms after that adjustment
    applies no adjustment, and the settings stay at the baseline with an
    empty history. *)
Theorem reset_keeps_cooldown_window (s : Adjuster) :
  lastAdjustmentTime (reset s) = lastAdjustmentTime s
  /\ forall event data now now',
       (now' - lastAdjustmentTime s < ADJUSTMENT_COOLDOWN)%Z ->
       applied (reset s) (updateMetrics event data now now' (reset s)) = false
       /\ currentSettings (updateMetrics event data now now' (reset s))
          = baseSettings s
       /\ adjustmentHistory (updateMetrics event data now now' (reset s)) = []
       /\ lastAdjustmentTime (updateMetrics event data now now' (reset s))
          = lastAdjustmentTime s.
Proof.
  split; [reflexivity | ].
  intros event data now now' Hcool.
  unfold updateMetrics.
  pose proof (handleEvent_frame event data now (reset s)) as Hh.
  pose proof (updateSkillLevel_frame (handleEvent event data now (reset s)))
    as Hu.
  destruct Hh as (_ & Hh2 & Hh3 & Hh4 & Hh5).
  destruct Hu as (_ & Hu2 & Hu3 & Hu4 & _ & _ & _ & Hu8).
  rewrite considerAdjustment_skipped.
  - unfold applied. rewrite Hu8, Hh5, Hu2, Hh2, Hu3, Hh3, Hu4, Hh4.
    repeat split; try reflexivity. apply Nat.ltb_irrefl.
  - rewrite Hu4, Hh4. exact Hcool.
Qed.

(** A reachable instance: the fourth death applied an adjustment at
    100003 and the fifth left frustrationLevel at 0.8.  After a reset the
    decision still asks for relief, yet a death reported 3,997 ms after the
    adjustment applies none. *)
Lemma reset_keeps_cooldown_window_witness :
  (104000 - lastAdjustmentTime overwhelmed < ADJUSTMENT_COOLDOWN)%Z
  /\ adjust (shouldAdjustDifficulty (reset overwhelmed)) = true
  /\ applied (reset overwhelmed)
       (updateMetrics "player_death" None 104000 104000 (reset overwhelmed))
     = false.
Proof.
  assert (Hcool :
    (104000 - lastAdjustmentTime overwhelmed < ADJUSTMENT_COOLDOWN)%Z)
    by (vm_compute; reflexivity).
  split; [exact Hcool | split; [vm_compute; reflexivity | ]].
  destruct (proj2 (reset_keeps_cooldown_window overwhelmed)
              "player_death"%string None 104000%Z 104000%Z Hcool)
    as [Hskip _].
  exact Hskip.
Defined.

(** ** The consecutive counters *)

(** Skill recomputation and the adjustment never touch the counters. *)
Lemma updateMetrics_counters event data now now' s :
  consecutiveFailures (updateMetrics event data now now' s)
  = consecutiveFailures (handleEvent event data now s)
  /\ consecutiveSuccesses (updateMetrics event data now now' s)
     = consecutiveSuccesses (handleEvent event data now s)
  /\ deathCount (updateMetrics event data now now' s)
     = deathCount (handleEvent event data now s).
Proof.
  unfold updateMetrics.
  destruct (considerAdjustment_counters now'
              (updateSkillLevel (handleEvent event data now s)))
    as (-> & -> & -> & _).
  repeat split; reflexivity.
Qed.

Lemma handleEvent_other_counters event data now s :
  event <> "player_death"%string ->
  event <> "level_complete"%string ->
  consecutiveFailures (handleEvent event data now s) = consecutiveFailures s
  /\ consecutiveSuccesses (handleEvent event data now s)
     = consecutiveSuccesses s.
Proof.
  intros Hd Hc.
  event_cases event; try (split; reflexivity).
  - exfalso. apply Hd. apply String.eqb_eq. assumption.
  - exfalso. apply Hc. apply String.eqb_eq. assumption.
  - destruct data as [[[t |]] |]; simpl; try (split; reflexivity).
    destruct (negb (Qeq_bool t 0)); split; reflexivity.
Qed.

Lemma step_exclusive c s :
  consecutiveFailures s = 0%Z \/ consecutiveSuccesses s = 0%Z ->
  consecutiveFailures (step c s) = 0%Z
  \/ consecutiveSuccesses (step c s) = 0%Z.
Proof.
  intro Hinv. destruct c as [event data now now' | ]; simpl.
  - destruct (updateMetrics_counters event data now now' s)
      as (-> & -> & _).
    destruct (String.eqb_spec event "player_death") as [-> | Hd].
    { right. reflexivity. }
    destruct (String.eqb_spec event "level_complete") as [-> | Hc].
    { left. reflexivity. }
    destruct (handleEvent_other_counters event data now s Hd Hc)
      as [-> ->].
    exact Hinv.
  - left. reflexivity.
Qed.

Lemma run_exclusive cs s :
  consecutiveFailures s = 0%Z \/ consecutiveSuccesses s = 0%Z ->
  consecutiveFailures (run cs s) = 0%Z
  \/ consecutiveSuccesses (run cs s) = 0%Z.
Proof.
  revert s. induction cs as [ | c cs IH]; intros s Hinv; simpl.
  - exact Hinv.
  - apply IH. apply step_exclusive. exact Hinv.
Qed.

(** C8: in every state reached from construction by [updateMetrics] and
    [reset()] calls, consecutiveFailures and consecutiveSuccesses are not
    both nonzero.  [player_death] adds one to consecutiveFailures and zeroes
    consecutiveSuccesses, [level_complete] adds one to consecutiveSuccesses
    and zeroes consecutiveFailures, every other event leaves both as they
    were, and [reset()] zeroes both. *)
Theorem consecutive_counters_never_both_nonzero :
  (forall base cs,
     consecutiveFailures (run cs (constructor base)) = 0%Z
     \/ consecutiveSuccesses (run cs (constructor base)) = 0%Z)
  /\ (forall s data now now',
        consecutiveFailures (updateMetrics "player_death" data now now' s)
        = (consecutiveFailures s + 1)%Z
        /\ consecutiveSuccesses (updateMetrics "player_death" data now now' s)
           = 0%Z)
  /\ (forall s data now now',
        consecutiveSuccesses (updateMetrics "level_complete" data now now' s)
        = (consecutiveSuccesses s + 1)%Z
        /\ consecutiveFailures (updateMetrics "level_complete" data now now' s)
           = 0%Z)
  /\ (forall s event data now now',
        event <> "player_death"%string ->
        event <> "level_complete"%string ->
        consecutiveFailures (updateMetrics event data now now' s)
        = consecutiveFailures s
        /\ consecutiveSuccesses (updateMetrics event data now now' s)
           = consecutiveSuccesses s)
  /\ (forall s,
        consecutiveFailures (reset s) = 0%Z
        /\ consecutiveSuccesses (reset s) = 0%Z).
Proof.
  split; [ | split; [ | split; [ | split]]].
  - intros base cs. apply run_exclusive. left. reflexivity.
  - intros s data now now'.
    destruct (updateMetrics_counters "player_death" data now now' s)
      as (-> & -> & _).
    split; reflexivity.
  - intros s data now now'.
    destruct (updateMetrics_counters "level_complete" data now now' s)
      as (-> & -> & _).
    split; reflexivity.
  - intros s event data now now' Hd Hc.
    destruct (updateMetrics_counters event data now now' s)
      as (-> & -> & _).
    apply handleEvent_other_counters; assumption.
  - intro s. split; reflexivity.
Qed.

(** An instance: a ring collected after the four deaths leaves the
    counters at 4 and 0. *)
Lemma consecutive_counters_never_both_nonzero_witness :
  "ring_collected"%string <> "player_death"%string
  /\ "ring_collected"%string <> "level_complete"%string
  /\ consecutiveFailures
       (updateMetrics "ring_collected" None 100500 100500 frustrated) = 4%Z
  /\ consecutiveSuccesses
       (updateMetrics "ring_collected" None 100500 100500 frustrated) = 0%Z.
Proof.
  assert (Hd : "ring_collected"%string <> "player_death"%string)
    by discriminate.
  assert (Hc : "ring_collected"%string <> "level_complete"%string)
    by discriminate.
  split; [exact Hd | split; [exact Hc | ]].
  destruct consecutive_counters_never_both_nonzero
    as (_ & _ & _ & Hother & _).
  destruct (Hother frustrated "ring_collected"%string None
              100500%Z 100500%Z Hd Hc) as [Hf Hs].
  split.
  - rewrite Hf. reflexivity.
  - rewrite Hs. reflexivity.
Defined.

(** ** The payload of [player_input] *)

Lemma updateMetrics_reactionTime event data now now' s :
  reactionTime (playerMetrics (updateMetrics event data now now' s))
  = reactionTime (playerMetrics (handleEvent event data now s)).
Proof.
  unfold updateMetrics. rewrite considerAdjustment_playerMetrics.
  reflexivity.
Qed.

(** C10: a [player_input] whose expectedTime marker is 0 is handled exactly
    like one without a marker, with or without a payload object: the
    resulting state is the same and reactionTime is left as it was.  Any
    nonzero marker, also one later than the clock reading, moves
    reactionTime by a lerp of weight 0.1 towards [now - expectedTime]. *)
Theorem player_input_zero_marker_is_no_marker
    (s : Adjuster) (now now' : Z) (t : Q) :
  (t == 0 ->
     updateMetrics "player_input" (marked t) now now' s
     = updateMetrics "player_input" unmarked now now' s
     /\ updateMetrics "player_input" (marked t) now now' s
        = updateMetrics "player_input" None now now' s
     /\ reactionTime
          (playerMetrics (updateMetrics "player_input" (marked t) now now' s))
        = reactionTime (playerMetrics s))
  /\ (~ t == 0 ->
      reactionTime
        (playerMetrics (updateMetrics "player_input" (marked t) now now' s))
      = lerp (reactionTime (playerMetrics s)) (inject_Z now - t) 0.1).
Proof.
  split; intro Ht.
  - assert (Hh : handleEvent "player_input" (marked t) now s = s).
    { unfold handleEvent, marked. simpl.
      apply Qeq_bool_iff in Ht. rewrite Ht. reflexivity. }
    unfold updateMetrics. rewrite Hh. repeat split.
    rewrite considerAdjustment_playerMetrics. reflexivity.
  - rewrite updateMetrics_reactionTime.
    unfold handleEvent, marked. simpl.
    destruct (Qeq_bool t 0) eqn:E.
    + exfalso. apply Ht. apply Qeq_bool_iff. exact E.
    + reflexivity.
Qed.

(** Instances: the marker 0, and the marker 105000 reported at clock reading
    100000, five seconds in the future; the sample is then -5000 and
    reactionTime drops from 300 to -230. *)
Lemma player_input_zero_marker_is_no_marker_witness :
  (0 == 0
   /\ reactionTime
        (playerMetrics
           (updateMetrics "player_input" (marked 0) 100000 100000 fresh))
      = 300)
  /\ (~ 105000 == 0
      /\ reactionTime
           (playerMetrics
              (updateMetrics "player_input" (marked 105000)
                 100000 100000 fresh))
         == -230).
Proof.
  assert (Hz : 0 == 0) by reflexivity.
  assert (Hnz : ~ 105000 == 0) by (intro H; discriminate H).
  split; split; try assumption.
  - destruct (proj1 (player_input_zero_marker_is_no_marker
                       fresh 100000%Z 100000%Z 0) Hz) as (_ & _ & H).
    exact H.
  - rewrite (proj2 (player_input_zero_marker_is_no_marker
                      fresh 100000%Z 100000%Z 105000) Hnz).
    vm_compute. reflexivity.
Defined.

(** ** Events outside the closed set *)

(** C2, as amended: an event kind outside the closed set runs no case of
    the switch, so the event itself changes no counter, no timestamp and no
    metric; skillLevel is nevertheless recomputed and the adjustment is
    nevertheless considered, as after every event.  The state after the
    call is the one that [updateSkillLevel] followed by
    [considerAdjustment] produce from the state before it, and every metric
    other than skillLevel keeps its value. *)
Theorem unknown_event_recomputes_skill_and_considers_adjustment
    (s : Adjuster) (event : string) (data : option Payload) (now now' : Z) :
  ~ In event knownEvents ->
  updateMetrics event data now now' s
  = considerAdjustment now' (updateSkillLevel s)
  /\ successRate (playerMetrics (updateMetrics event data now now' s))
     = successRate (playerMetrics s)
  /\ averageAttempts (playerMetrics (updateMetrics event data now now' s))
     = averageAttempts (playerMetrics s)
  /\ reactionTime (playerMetrics (updateMetrics event data now now' s))
     = reactionTime (playerMetrics s)
  /\ frustrationLevel (playerMetrics (updateMetrics event data now now' s))
     = frustrationLevel (playerMetrics s)
  /\ engagementScore (playerMetrics (updateMetrics event data now now' s))
     = engagementScore (playerMetrics s)
  /\ deathCount (updateMetrics event data now now' s) = deathCount s
  /\ consecutiveFailures (updateMetrics event data now now' s)
     = consecutiveFailures s
  /\ consecutiveSuccesses (updateMetrics event data now now' s)
     = consecutiveSuccesses s
  /\ levelStartTime (updateMetrics event data now now' s) = levelStartTime s
  /\ lastActionTime (updateMetrics event data now now' s) = lastActionTime s.
Proof.
  intro Hout. unfold updateMetrics.
  rewrite (handleEvent_unknown event data now s Hout).
  destruct (considerAdjustment_counters now' (updateSkillLevel s))
    as (-> & -> & -> & -> & ->).
  rewrite considerAdjustment_playerMetrics.
  repeat split; reflexivity.
Qed.

Lemma pause_is_unknown : ~ In "pause"%string knownEvents.
Proof.
  simpl. intros [H | [H | [H | [H | [H | [H | []]]]]]]; discriminate H.
Qed.

(** An instance: the event kind "pause" on the fresh controller. *)
Lemma unknown_event_recomputes_skill_and_considers_adjustment_witness :
  ~ In "pause"%string knownEvents
  /\ updateMetrics "pause" None 20000 20000 fresh
     = considerAdjustment 20000 (updateSkillLevel fresh).
Proof.
  split; [exact pause_is_unknown | ].
  apply (unknown_event_recomputes_skill_and_considers_adjustment
           fresh "pause"%string None 20000%Z 20000%Z pause_is_unknown).
Defined.

(** C2, as stated, fails: "pause" is outside the closed set, yet on the
    fresh controller it moves skillLevel from 1/2 to 149/300, and on the
    controller left by the four deaths it applies an adjustment once the
    cooldown is over. *)
Lemma unknown_event_changes_skill_and_adjusts :
  ~ In "pause"%string knownEvents
  /\ ~ skillLevel (playerMetrics (updateMetrics "pause" None 20000 20000 fresh))
       == skillLevel (playerMetrics fresh)
  /\ updateMetrics "pause" None 20000 20000 fresh <> fresh
  /\ applied frustrated (updateMetrics "pause" None 200000 200000 frustrated)
     = true.
Proof.
  split; [exact pause_is_unknown | ].
  assert (Hskill :
    ~ skillLevel
        (playerMetrics (updateMetrics "pause" None 20000 20000 fresh))
      == skillLevel (playerMetrics fresh)).
  { vm_compute. intro H. discriminate H. }
  split; [exact Hskill | split].
  - intro E. apply Hskill. rewrite E. reflexivity.
  - vm_compute. reflexivity.
Qed.

(** ** The decision rule *)

Lemma gt_zero_is_sign (x : Q) :
  (if gt x 0 then increase else decrease)
  = match x ?= 0 with
    | Gt => increase
    | _ => decrease
    end.
Proof.
  unfold gt, lt. destruct (Qlt_le_dec 0 x) as [H | H].
  - rewrite (proj1 (Qgt_alt x 0) H). reflexivity.
  - pose proof (proj1 (Qle_alt x 0) H) as H'.
    destruct (x ?= 0); try reflexivity. exfalso. apply H'. reflexivity.
Qed.

(** The source's cascade of [if]s returns what the first firing rule of
    the specification asks for. *)
Lemma shouldAdjustDifficulty_is_firstMatch (s : Adjuster) :
  shouldAdjustDifficulty s
  = match Spec.firstMatch Spec.rules s with
    | Some (d, i) => {| adjust := true; direction := d; intensity := i |}
    | None => {| adjust := false; direction := increase; intensity := 0 |}
    end.
Proof.
  unfold shouldAdjustDifficulty, Spec.rules, Spec.firstMatch,
    Spec.relief, Spec.challenge, Spec.skillMatching.
  cbn [Spec.fires Spec.verdict].
  rewrite !Z.gtb_ltb, <- !Math_abs_is_Qabs, <- Math_min_is_Qmin,
    <- gt_zero_is_sign.
  destruct (gt (frustrationLevel (playerMetrics s)) 0.7
            || lt (successRate (playerMetrics s)) 0.4
            || (3 <? consecutiveFailures s)%Z); [reflexivity | ].
  destruct (lt (engagementScore (playerMetrics s)) 0.4
            || gt (successRate (playerMetrics s)) 0.9
            || (5 <? consecutiveSuccesses s)%Z); [reflexivity | ].
  destruct (gt (Math_abs (skillLevel (playerMetrics s) - 0.5)) 0.2);
    reflexivity.
Qed.



(** ** Applying an adjustment *)

(** Unfolds the field assignments and projections of the two records. *)
Ltac fields :=
  cbv [set_enemySpeed set_enemyCount set_platformSpacing
       set_gravityStrength set_powerUpFrequency
       set_playerMetrics set_currentSettings set_adjustmentHistory
       set_lastAdjustmentTime set_console
       enemySpeed enemyCount platformSpacing ringRequirement
       gravityStrength powerUpFrequency
       currentSettings baseSettings adjustmentHistory console
       playerMetrics];
  cbv beta iota zeta.

(** The settings that [adjustDifficulty] leaves, field by field. *)
Lemma adjustDifficulty_currentSettings (d : Direction) (i : Q) (s : Adjuster) :
  currentSettings (adjustDifficulty d i s)
  = let c := currentSettings s in
    let m := match d with increase => 1 + i | decrease => 1 - i end in
    {| enemySpeed := Math_max 50 (Math_min 300 (enemySpeed c * m));
       enemyCount :=
         Math_max 1
           (Math_min 10
              match d with
              | increase => Math_min 10 (Math_ceil (enemyCount c * m))
              | decrease => Math_max 1 (Math_floor (enemyCount c * m))
              end);
       platformSpacing :=
         Math_max 50
           (Math_min 200
              (platformSpacing c
               * match d with increase => 1.1 | decrease => 0.9 end));
       ringRequirement := ringRequirement c;
       gravityStrength := Math_max 300 (Math_min 800 (gravityStrength c * m));
       powerUpFrequency :=
         Math_max 0.1
           (Math_min 1
              (powerUpFrequency c
               * match d with increase => 0.9 | decrease => 1.1 end)) |}.
Proof. destruct d; reflexivity. Qed.

(** ** Applying an adjustment on IEEE doubles *)

(** *** The order of binary64 numbers against a positive constant *)

Lemma lex_spec e1 m1 e2 m2 :
  match Binary64.lex e1 m1 e2 m2 with
  | Lt => (e1 < e2)%Z \/ (e1 = e2 /\ (m1 < m2)%positive)
  | Eq => e1 = e2 /\ m1 = m2
  | Gt => (e2 < e1)%Z \/ (e1 = e2 /\ (m2 < m1)%positive)
  end.
Proof.
  unfold Binary64.lex.
  change (Pos.compare_cont Eq m1 m2) with (m1 ?= m2)%positive.
  destruct (Z.compare_spec e1 e2) as [He | He | He].
  - destruct (Pos.compare_spec m1 m2) as [Hm | Hm | Hm].
    + split; assumption.
    + right. split; assumption.
    + right. split; assumption.
  - left. exact He.
  - left. exact He.
Qed.

Lemma SFcompare_positive e1 m1 e2 m2 :
  SFcompare (S754_finite false m1 e1) (S754_finite false m2 e2)
  = Some (Binary64.lex e1 m1 e2 m2).
Proof. reflexivity. Qed.

Lemma SFcompare_swap (f : spec_float) e m :
  SFcompare (S754_finite false m e) f
  = match SFcompare f (S754_finite false m e) with
    | Some c => Some (CompOpp c)
    | None => None
    end.
Proof.
  destruct f as [s | s | | s m' e']; try destruct s; try reflexivity.
  rewrite !SFcompare_positive. f_equal.
  pose proof (lex_spec e m e' m') as H1.
  pose proof (lex_spec e' m' e m) as H2.
  destruct (Binary64.lex e m e' m'); destruct (Binary64.lex e' m' e m);
    simpl; try reflexivity; exfalso; lia.
Qed.

Lemma SFcompare_Lt_trans (f : spec_float) e1 m1 e2 m2 :
  SFcompare f (S754_finite false m1 e1) = Some Lt ->
  Binary64.lex e1 m1 e2 m2 = Lt ->
  SFcompare f (S754_finite false m2 e2) = Some Lt.
Proof.
  destruct f as [s | s | | s m e]; try destruct s; simpl;
    try discriminate; try reflexivity.
  fold (Binary64.lex e m e1 m1). fold (Binary64.lex e m e2 m2).
  intros H1 H2. injection H1 as H1.
  pose proof (lex_spec e m e1 m1) as S1.
  pose proof (lex_spec e1 m1 e2 m2) as S2.
  pose proof (lex_spec e m e2 m2) as S3.
  rewrite H1 in S1. rewrite H2 in S2.
  destruct (Binary64.lex e m e2 m2); try reflexivity; exfalso; lia.
Qed.

Lemma SFcompare_Eq_positive (f : spec_float) e m :
  SFcompare f (S754_finite false m e) = Some Eq ->
  f = S754_finite false m e.
Proof.
  destruct f as [s | s | | s m' e']; try destruct s; simpl;
    try discriminate.
  fold (Binary64.lex e' m' e m). intro H. injection H as H.
  pose proof (lex_spec e' m' e m) as S. rewrite H in S.
  destruct S as [-> ->]. reflexivity.
Qed.

Lemma SFcompare_None_positive (f : spec_float) e m :
  SFcompare f (S754_finite false m e) = None -> f = S754_nan.
Proof.
  destruct f as [s | s | | s m' e']; try destruct s; simpl;
    try discriminate; reflexivity.
Qed.

Lemma Prim2SF_nan : FloatOps.Prim2SF nan = S754_nan.
Proof. reflexivity. Qed.

(** How a number [x] compares with a positive finite [c]: it is below,
    above, [c] itself, or NaN. *)
Lemma compare_with_positive (x c : float) m e :
  FloatOps.Prim2SF c = S754_finite false m e ->
  match SFcompare (FloatOps.Prim2SF x) (S754_finite false m e) with
  | Some Lt => (x <? c)%float = true /\ (c <? x)%float = false
               /\ (c =? x)%float = false
  | Some Gt => (x <? c)%float = false /\ (c <? x)%float = true
               /\ (c =? x)%float = false
  | Some Eq => x = c
  | None => x = nan
  end.
Proof.
  intro Hc.
  rewrite !FloatAxioms.ltb_spec, !FloatAxioms.eqb_spec, Hc.
  unfold SFltb, SFeqb. rewrite SFcompare_swap.
  destruct (SFcompare (FloatOps.Prim2SF x) (S754_finite false m e))
    as [[ | | ] | ] eqn:E; simpl; try (repeat split; reflexivity).
  - apply FloatAxioms.Prim2SF_inj. rewrite Hc.
    apply SFcompare_Eq_positive. exact E.
  - apply FloatAxioms.Prim2SF_inj. rewrite Prim2SF_nan.
    apply (SFcompare_None_positive _ e m). exact E.
Qed.

Lemma nan_incomparable (c : float) m e :
  FloatOps.Prim2SF c = S754_finite false m e ->
  (c <? nan)%float = false /\ (nan <? c)%float = false
  /\ (c =? nan)%float = false.
Proof.
  intro Hc.
  rewrite !FloatAxioms.ltb_spec, !FloatAxioms.eqb_spec, Hc, Prim2SF_nan.
  repeat split; reflexivity.
Qed.

Lemma self_equal (c : float) m e :
  FloatOps.Prim2SF c = S754_finite false m e ->
  (c =? c)%float = true /\ (c <? c)%float = false.
Proof.
  intro Hc. rewrite FloatAxioms.eqb_spec, FloatAxioms.ltb_spec, Hc.
  unfold SFeqb, SFltb. rewrite SFcompare_positive.
  pose proof (lex_spec e m e m) as S.
  destruct (Binary64.lex e m e m); split; try reflexivity; exfalso; lia.
Qed.

(** *** [Math.max] and [Math.min] against the bounds of a range *)

Section Clamp.

Variables lo hi : float.
Variables mlo mhi : positive.
Variables elo ehi : Z.
Hypothesis Hlo : FloatOps.Prim2SF lo = S754_finite false mlo elo.
Hypothesis Hhi : FloatOps.Prim2SF hi = S754_finite false mhi ehi.
Hypothesis Hlt : Binary64.lex elo mlo ehi mhi = Lt.

Lemma lo_below_hi :
  (lo <? hi)%float = true /\ (hi <? lo)%float = false.
Proof.
  rewrite !FloatAxioms.ltb_spec, Hlo, Hhi. unfold SFltb.
  rewrite !SFcompare_positive, Hlt.
  pose proof (lex_spec elo mlo ehi mhi) as S1. rewrite Hlt in S1.
  pose proof (lex_spec ehi mhi elo mlo) as S2.
  destruct (Binary64.lex ehi mhi elo mlo); split; try reflexivity;
    exfalso; lia.
Qed.

(** [Math.min(hi, x)] caps [x] at [hi]. *)
Lemma min_is_cappedAt (x : float) :
  Binary64.Math_min hi x = Binary64.Spec.cappedAt hi x.
Proof.
  destruct (self_equal hi mhi ehi Hhi) as (Hee & Hhh).
  pose proof (compare_with_positive x hi mhi ehi Hhi) as Chi.
  unfold Binary64.Math_min, Binary64.Spec.cappedAt.
  destruct (SFcompare (FloatOps.Prim2SF x) (S754_finite false mhi ehi))
    as [[ | | ] | ].
  - subst x. rewrite Hhh, Hee. destruct (Binary64.isNegativeZero hi);
      reflexivity.
  - destruct Chi as (H1 & H2 & H3). rewrite H2, H1. reflexivity.
  - destruct Chi as (H1 & H2 & H3). rewrite H2. reflexivity.
  - subst x. destruct (nan_incomparable hi mhi ehi Hhi) as (N1 & N2 & N3).
    rewrite N1, N2, N3. reflexivity.
Qed.

(** [Math.max(lo, x)] floors [x] at [lo]. *)
Lemma max_is_flooredAt (x : float) :
  Binary64.Math_max lo x = Binary64.Spec.flooredAt lo x.
Proof.
  destruct (self_equal lo mlo elo Hlo) as (Hee & Hll).
  pose proof (compare_with_positive x lo mlo elo Hlo) as Clo.
  unfold Binary64.Math_max, Binary64.Spec.flooredAt.
  destruct (SFcompare (FloatOps.Prim2SF x) (S754_finite false mlo elo))
    as [[ | | ] | ].
  - subst x. rewrite Hll, Hee. destruct (Binary64.isNegativeZero lo);
      reflexivity.
  - destruct Clo as (H1 & H2 & H3). rewrite H2, H1. reflexivity.
  - destruct Clo as (H1 & H2 & H3). rewrite H2, H1. reflexivity.
  - subst x. destruct (nan_incomparable lo mlo elo Hlo) as (N1 & N2 & N3).
    rewrite N1, N2, N3. reflexivity.
Qed.

(** The nested [Math.max(lo, Math.min(hi, x))] of the source is the clamp
    by cases, for every [x]: a number, an infinity or NaN. *)
Lemma nested_is_clamp (x : float) :
  Binary64.Math_max lo (Binary64.Math_min hi x) = Binary64.Spec.clamp lo hi x.
Proof.
  rewrite min_is_cappedAt, max_is_flooredAt.
  destruct lo_below_hi as (Hlh & Hhl).
  pose proof (compare_with_positive x lo mlo elo Hlo) as Clo.
  pose proof (compare_with_positive x hi mhi ehi Hhi) as Chi.
  unfold Binary64.Spec.cappedAt, Binary64.Spec.flooredAt,
    Binary64.Spec.clamp.
  destruct (SFcompare (FloatOps.Prim2SF x) (S754_finite false mlo elo))
    as [[ | | ] | ] eqn:Elo.
  - subst x. rewrite Hhl.
    destruct (self_equal lo mlo elo Hlo) as (_ & Hll). rewrite Hll.
    reflexivity.
  - destruct Clo as (H1 & H2 & H3).
    pose proof (SFcompare_Lt_trans _ _ _ _ _ Elo Hlt) as Ehi.
    rewrite Ehi in Chi. destruct Chi as (H4 & H5 & H6).
    rewrite H5, H1. reflexivity.
  - destruct Clo as (H1 & H2 & H3).
    destruct (SFcompare (FloatOps.Prim2SF x) (S754_finite false mhi ehi))
      as [[ | | ] | ].
    + subst x. destruct (self_equal hi mhi ehi Hhi) as (_ & Hhh).
      rewrite Hhh, Hhl. reflexivity.
    + destruct Chi as (H4 & H5 & H6). rewrite H5, H1. reflexivity.
    + destruct Chi as (H4 & H5 & H6). rewrite H5, Hhl, H1. reflexivity.
    + subst x. rewrite Prim2SF_nan in Elo. discriminate Elo.
  - subst x.
    destruct (nan_incomparable lo mlo elo Hlo) as (N1 & N2 & N3).
    destruct (nan_incomparable hi mhi ehi Hhi) as (N4 & N5 & N6).
    rewrite N4, N2. reflexivity.
Qed.

End Clamp.

(** The settings that [adjustDifficulty] leaves, field by field. *)
Lemma adjustDifficulty_currentSettings_in_binary64
    (d : Direction) (i : float) (s : Binary64.Adjuster) :
  Binary64.currentSettings (Binary64.adjustDifficulty d i s)
  = let c := Binary64.currentSettings s in
    let m := match d with
             | increase => (1 + i)%float
             | decrease => (1 - i)%float
             end in
    {| Binary64.enemySpeed :=
         Binary64.Math_max 50
           (Binary64.Math_min 300 (Binary64.enemySpeed c * m))%float;
       Binary64.enemyCount :=
         Binary64.Math_max 1%float
           (Binary64.Math_min 10%float
              match d with
              | increase =>
                  Binary64.Math_min 10%float
                    (Binary64.Math_ceil (Binary64.enemyCount c * m)%float)
              | decrease =>
                  Binary64.Math_max 1%float
                    (Binary64.Math_floor (Binary64.enemyCount c * m)%float)
              end);
       Binary64.platformSpacing :=
         Binary64.Math_max 50
           (Binary64.Math_min 200
              (Binary64.platformSpacing c
               * match d with increase => 1.1 | decrease => 0.9 end))%float;
       Binary64.ringRequirement := Binary64.ringRequirement c;
       Binary64.gravityStrength :=
         Binary64.Math_max 300
           (Binary64.Math_min 800 (Binary64.gravityStrength c * m))%float;
       Binary64.powerUpFrequency :=
         Binary64.Math_max 0.1
           (Binary64.Math_min 1
              (Binary64.powerUpFrequency c
               * match d with increase => 0.9 | decrease => 1.1 end))%float
    |}.
Proof. destruct d; reflexivity. Qed.


(** Two adjustments of the baseline, replayed.  An increase of 0.15
    leaves the products as binary64 rounds them.  A decrease of 2^-57
    keeps the three enemies: 1 - 2^-57 rounds to 1, so the count is
    multiplied by 1 and its floor is 3. *)
Lemma adjustDifficulty_replayed_in_binary64 :
  Binary64.currentSettings
    (Binary64.adjustDifficulty increase 0.15 Binary64.fresh)
  = {| Binary64.enemySpeed := 114.99999999999999;
       Binary64.enemyCount := 4;
       Binary64.platformSpacing := 132;
       Binary64.ringRequirement := 5;
       Binary64.gravityStrength := 459.99999999999994;
       Binary64.powerUpFrequency := 0.27 |}
  /\ Binary64.currentSettings
       (Binary64.adjustDifficulty decrease 0x1p-57 Binary64.fresh)
     = {| Binary64.enemySpeed := 100;
          Binary64.enemyCount := 3;
          Binary64.platformSpacing := 108;
          Binary64.ringRequirement := 5;
          Binary64.gravityStrength := 400;
          Binary64.powerUpFrequency := 0.33 |}.
Proof. split; vm_compute; reflexivity. Qed.

(** ** One call of [updateMetrics], seen from outside *)

(** Either the call applied no adjustment, and then settings, history and
    lastAdjustmentTime are those before the call; or the cooldown had
    elapsed, an adjustment was applied to the settings and its time
    recorded. *)
Lemma updateMetrics_cases event data now now' s :
  (applied s (updateMetrics event data now now' s) = false
   /\ currentSettings (updateMetrics event data now now' s)
      = currentSettings s
   /\ adjustmentHistory (updateMetrics event data now now' s)
      = adjustmentHistory s
   /\ lastAdjustmentTime (updateMetrics event data now now' s)
      = lastAdjustmentTime s)
  \/ (applied s (updateMetrics event data now now' s) = true
      /\ (ADJUSTMENT_COOLDOWN <= now' - lastAdjustmentTime s)%Z
      /\ lastAdjustmentTime (updateMetrics event data now now' s) = now'
      /\ exists d i s1,
           currentSettings (updateMetrics event data now now' s)
           = currentSettings (adjustDifficulty d i s1)).
Proof.
  unfold updateMetrics.
  pose proof (handleEvent_frame event data now s) as Hh.
  pose proof (updateSkillLevel_frame (handleEvent event data now s)) as Hu.
  destruct Hh as (_ & Hh2 & Hh3 & Hh4 & Hh5).
  destruct Hu as (_ & Hu2 & Hu3 & Hu4 & _ & _ & _ & Hu8).
  set (s1 := updateSkillLevel (handleEvent event data now s)) in *.
  assert (Happ : forall s2, applied s s2 = applied s1 s2).
  { intro s2. unfold applied. rewrite Hu8, Hh5. reflexivity. }
  rewrite Happ.
  destruct (considerAdjustment_cases now' s1)
    as [[Hsame Hno] | (Hgate & _ & Heq & Hlast & Hyes)].
  - left. rewrite Hsame in *. rewrite Hu2, Hu3, Hu4.
    repeat split; assumption.
  - right. rewrite Hu4, Hh4 in Hgate.
    repeat split; try assumption.
    exists (direction (shouldAdjustDifficulty s1)),
      (intensity (shouldAdjustDifficulty s1)), s1.
    rewrite Heq. reflexivity.
Qed.

(** ** The ranges of the settings *)

Lemma adjustDifficulty_withinRanges d i s :
  withinRanges (currentSettings (adjustDifficulty d i s)).
Proof.
  rewrite adjustDifficulty_currentSettings.
  unfold withinRanges. fields.
  repeat split; apply clamped_between; lra.
Qed.

Lemma step_withinRanges c s :
  withinRanges (baseSettings s) ->
  withinRanges (currentSettings s) ->
  withinRanges (currentSettings (step c s)).
Proof.
  intros Hbase Hcur. destruct c as [event data now now' | ]; simpl.
  - destruct (updateMetrics_cases event data now now' s)
      as [(_ & -> & _) | (_ & _ & _ & d & i & s1 & ->)].
    + exact Hcur.
    + apply adjustDifficulty_withinRanges.
  - exact Hbase.
Qed.

Lemma states_withinRanges cs s :
  withinRanges (baseSettings s) ->
  withinRanges (currentSettings s) ->
  Forall (fun s' => withinRanges (currentSettings s')) (states cs s).
Proof.
  revert s. induction cs as [ | c cs IH]; intros s Hbase Hcur; simpl.
  - constructor; [exact Hcur | constructor].
  - constructor; [exact Hcur | ].
    apply IH.
    + rewrite step_baseSettings. exact Hbase.
    + apply step_withinRanges; assumption.
Qed.


Lemma baseDifficulty_withinRanges : withinRanges baseDifficulty.
Proof. unfold withinRanges. simpl. repeat split; lra. Qed.



(** ** The cooldown *)

Lemma cooledDown_trans (t u v : Z) :
  cooledDown t u -> cooledDown u v -> cooledDown t v.
Proof. unfold cooledDown, ADJUSTMENT_COOLDOWN. lia. Qed.

(** Along a run from [s], every applied adjustment comes at least a
    cooldown after the adjustment recorded in [s], and any two of them are a
    cooldown apart. *)
Lemma appliedAt_cooledDown cs s :
  Forall (cooledDown (lastAdjustmentTime s)) (appliedAt cs s)
  /\ ForallOrdPairs cooledDown (appliedAt cs s).
Proof.
  revert s. induction cs as [ | c cs IH]; intro s; simpl.
  - split; constructor.
  - destruct c as [event data now now' | ].
    + simpl.
      destruct (updateMetrics_cases event data now now' s)
        as [(-> & _ & _ & Hlast) | (-> & Hgate & Hlast & _)].
      * rewrite <- Hlast. apply IH.
      * destruct (IH (updateMetrics event data now now' s))
          as [Hafter Hpairs].
        rewrite Hlast in Hafter.
        split.
        -- constructor; [exact Hgate | ].
           eapply Forall_impl; [ | exact Hafter].
           intros t Ht. apply (cooledDown_trans _ now'); assumption.
        -- constructor; assumption.
    + simpl. apply (IH (reset s)).
Qed.

(** C6: along every run, any two calls that apply an adjustment read the
    clock at least 10,000 ms apart; a call of [updateMetrics] sets
    lastAdjustmentTime to its clock reading when it applies an adjustment
    and leaves it as it was when it does not; a call that applies none
    leaves settings and history as they were; [reset()] leaves
    lastAdjustmentTime as it was; and a decision that is skipped by the gate
    or that asks for no adjustment changes nothing at all. *)
Theorem applied_adjustments_are_a_cooldown_apart :
  (forall base cs,
     ForallOrdPairs cooledDown (appliedAt cs (constructor base)))
  /\ (forall s event data now now',
        lastAdjustmentTime (updateMetrics event data now now' s)
        = if applied s (updateMetrics event data now now' s)
          then now'
          else lastAdjustmentTime s)
  /\ (forall s event data now now',
        applied s (updateMetrics event data now now' s) = true
        \/ (currentSettings (updateMetrics event data now now' s)
            = currentSettings s
            /\ adjustmentHistory (updateMetrics event data now now' s)
               = adjustmentHistory s))
  /\ (forall s, lastAdjustmentTime (reset s) = lastAdjustmentTime s)
  /\ (forall s now,
        (now - lastAdjustmentTime s < ADJUSTMENT_COOLDOWN)%Z
        \/ adjust (shouldAdjustDifficulty s) = false ->
        considerAdjustment now s = s).
Proof.
  split; [ | split; [ | split; [ | split]]].
  - intros base cs. apply appliedAt_cooledDown.
  - intros s event data now now'.
    destruct (updateMetrics_cases event data now now' s)
      as [(-> & _ & _ & Hlast) | (-> & _ & Hlast & _)]; exact Hlast.
  - intros s event data now now'.
    destruct (updateMetrics_cases event data now now' s)
      as [(_ & Hcur & Hhist & _) | (Hyes & _)].
    + right. split; assumption.
    + left. exact Hyes.
  - intro s. reflexivity.
  - intros s now [Hgate | Hno].
    + apply considerAdjustment_skipped. exact Hgate.
    + unfold considerAdjustment. rewrite Hno.
      destruct (now - lastAdjustmentTime s <? ADJUSTMENT_COOLDOWN)%Z;
        reflexivity.
Qed.

(** Instances: 3,000 ms after the adjustment of the fourth death the gate
    is closed, and on the fresh controller the decision asks for nothing. *)
Lemma applied_adjustments_are_a_cooldown_apart_witness :
  ((103003 - lastAdjustmentTime frustrated < ADJUSTMENT_COOLDOWN)%Z
   /\ considerAdjustment 103003 frustrated = frustrated)
  /\ (adjust (shouldAdjustDifficulty fresh) = false
      /\ considerAdjustment 20000 fresh = fresh).
Proof.
  assert (Hgate :
    (103003 - lastAdjustmentTime frustrated < ADJUSTMENT_COOLDOWN)%Z)
    by (vm_compute; reflexivity).
  assert (Hno : adjust (shouldAdjustDifficulty fresh) = false)
    by (vm_compute; reflexivity).
  destruct applied_adjustments_are_a_cooldown_apart
    as (_ & _ & _ & _ & Hskip).
  split; split.
  - exact Hgate.
  - apply Hskip. left. exact Hgate.
  - exact Hno.
  - apply Hskip. right. exact Hno.
Defined.

(** ** The ranges of the metrics *)

Lemma updateMetrics_metrics event data now now' s :
  successRate (playerMetrics (updateMetrics event data now now' s))
  = successRate (playerMetrics (handleEvent event data now s))
  /\ frustrationLevel (playerMetrics (updateMetrics event data now now' s))
     = frustrationLevel (playerMetrics (handleEvent event data now s))
  /\ engagementScore (playerMetrics (updateMetrics event data now now' s))
     = engagementScore (playerMetrics (handleEvent event data now s)).
Proof.
  unfold updateMetrics. rewrite considerAdjustment_playerMetrics.
  repeat split; reflexivity.
Qed.

(** A [power_up_collected] event moves engagementScore 30% of the way
    towards 1.05. *)
Lemma powerUp_engagementScore now now' s :
  engagementScore (playerMetrics (step (powerUp now now') s))
  == 0.7 * engagementScore (playerMetrics s) + 0.315.
Proof.
  unfold powerUp, step.
  destruct (updateMetrics_metrics "power_up_collected" None now now' s)
    as (_ & _ & ->).
  unfold handleEvent. simpl String.eqb. cbv iota.
  unfold updateEngagementScore, lerp. fields. simpl engagementScore.
  assert (Htime : Math_max 0 (1 - 0 / 60000) == 1) by reflexivity.
  assert (Hattempt : Math_max 0 (1 - 0 / 5) == 1) by reflexivity.
  rewrite Htime, Hattempt. field.
Qed.

(** C1 at its failing input: starting from the constructor's 0.7, the sixth
    [power_up_collected] in a row leaves engagementScore above 1, whatever
    the baseline; on the game's baseline the value is 1.00882285. *)
Theorem six_power_ups_push_engagement_above_one :
  (forall base,
     1 < engagementScore
           (getPlayerMetrics (run sixPowerUps (constructor base))))
  /\ engagementScore (getPlayerMetrics (run sixPowerUps fresh))
     == 1.00882285.
Proof.
  split.
  - intro base. unfold getPlayerMetrics, sixPowerUps, run.
    rewrite !powerUp_engagementScore. simpl. lra.
  - vm_compute. reflexivity.
Qed.

(** The same run on doubles: five power-ups keep the constructor's 0.7
    below 1, the sixth takes it above. *)
Lemma six_power_ups_in_doubles :
  PrimFloat.ltb (Double.powerUps 5 0.7) 1 = true
  /\ PrimFloat.ltb 1 (Double.powerUps 6 0.7) = true.
Proof. split; vm_compute; reflexivity. Qed.

(** What does hold of the metrics: successRate and frustrationLevel never
    leave the unit interval, because deathCount is never negative and
    frustrationLevel is clamped on both sides. *)

Lemma reciprocal_inUnit (a : Z) : (1 <= a)%Z -> inUnit (1 / inject_Z a).
Proof.
  intro Ha. destruct a as [ | p | p]; try lia.
  unfold inUnit, Qdiv, Qinv, inject_Z, Qmult, Qle. simpl. lia.
Qed.

Lemma handleEvent_ratesInUnit event data now s :
  ratesInUnit s -> ratesInUnit (handleEvent event data now s).
Proof.
  intros (Hrate & Hfrus & Hdeaths).
  event_cases event; unfold ratesInUnit; simpl.
  - repeat split; try apply Hrate; try apply Hfrus; lia.
  - repeat split; try apply Hrate; try lia;
      apply (clamped_between 0 1); lra.
  - repeat split; try apply Hfrus; try lia;
      apply lerp_inUnit; try assumption;
      try (apply reciprocal_inUnit; lia); unfold inUnit; lra.
  - repeat split; try apply Hrate; try lia;
      apply (clamped_between 0 1); lra.
  - repeat split; try apply Hrate; try apply Hfrus; lia.
  - destruct data as [[[t |]] |]; simpl;
      try destruct (negb (Qeq_bool t 0)); simpl;
      repeat split; try apply Hrate; try apply Hfrus; lia.
  - repeat split; try apply Hrate; try apply Hfrus; lia.
Qed.

Lemma step_ratesInUnit c s : ratesInUnit s -> ratesInUnit (step c s).
Proof.
  intro Hinv. destruct c as [event data now now' | ]; simpl.
  - apply (handleEvent_ratesInUnit event data now) in Hinv.
    unfold ratesInUnit in *.
    destruct (updateMetrics_metrics event data now now' s) as (-> & -> & _).
    destruct (updateMetrics_counters event data now now' s) as (_ & _ & ->).
    exact Hinv.
  - destruct Hinv as (Hrate & Hfrus & _).
    unfold ratesInUnit. simpl. repeat split;
      try apply Hrate; try apply Hfrus; lia.
Qed.

Lemma run_ratesInUnit (base : DifficultySettings) (cs : list Call) :
  ratesInUnit (run cs (constructor base)).
Proof.
  assert (Hgen : forall s, ratesInUnit s -> ratesInUnit (run cs s)).
  { induction cs as [ | c cs IH]; intros s Hinv; simpl.
    - exact Hinv.
    - apply IH. apply step_ratesInUnit. exact Hinv. }
  apply Hgen. unfold ratesInUnit, inUnit. simpl. repeat split; try lra; lia.
Qed.

(** skillLevel has the same weakness as engagementScore: a marker 200 s
    ahead of the clock makes the reaction component, and with it the lerp
    target, exceed 1. *)
Lemma future_marker_pushes_skill_above_one :
  1 < skillLevel
        (getPlayerMetrics
           (updateMetrics "player_input" (marked 300000) 100000 100000
              fresh)).
Proof. vm_compute. reflexivity. Qed.

(** * Further properties of the controller *)

(** ** The shape of one call *)

(** [updateMetrics] handles the event, recomputes the skill, and then
    either stops there or applies the adjustment that the decision asks
    for. *)
Lemma updateMetrics_shape event data now now' s :
  (applied s (updateMetrics event data now now' s) = false
   /\ updateMetrics event data now now' s
      = updateSkillLevel (handleEvent event data now s))
  \/ (applied s (updateMetrics event data now now' s) = true
      /\ adjust (shouldAdjustDifficulty
                   (updateSkillLevel (handleEvent event data now s))) = true
      /\ updateMetrics event data now now' s
         = set_lastAdjustmentTime now'
             (adjustDifficulty
                (direction (shouldAdjustDifficulty
                   (updateSkillLevel (handleEvent event data now s))))
                (intensity (shouldAdjustDifficulty
                   (updateSkillLevel (handleEvent event data now s))))
                (updateSkillLevel (handleEvent event data now s)))).
Proof.
  unfold updateMetrics.
  pose proof (handleEvent_frame event data now s) as (_ & _ & _ & _ & Hh).
  pose proof (updateSkillLevel_frame (handleEvent event data now s))
    as (_ & _ & _ & _ & _ & _ & _ & Hu).
  set (s1 := updateSkillLevel (handleEvent event data now s)) in *.
  assert (Happ : forall s2, applied s s2 = applied s1 s2).
  { intro s2. unfold applied. rewrite Hu, Hh. reflexivity. }
  rewrite Happ.
  destruct (considerAdjustment_cases now' s1)
    as [[Hsame Hno] | (_ & Hadj & Heq & _ & Hyes)].
  - left. split; assumption.
  - right. repeat split; assumption.
Qed.

Lemma handleEvent_history event data now s :
  adjustmentHistory (updateSkillLevel (handleEvent event data now s))
  = adjustmentHistory s.
Proof.
  destruct (updateSkillLevel_frame (handleEvent event data now s))
    as (_ & _ & -> & _).
  apply handleEvent_frame.
Qed.

(** ** The adjustment history *)

Lemma adjustDifficulty_history d i s :
  adjustmentHistory (adjustDifficulty d i s)
  = if (10 <? length (adjustmentHistory s ++ [signedIntensity d i]))%nat
    then tl (adjustmentHistory s ++ [signedIntensity d i])
    else adjustmentHistory s ++ [signedIntensity d i].
Proof. destruct d; reflexivity. Qed.

Lemma adjustDifficulty_history_length d i s :
  (length (adjustmentHistory s) <= 10)%nat ->
  (length (adjustmentHistory (adjustDifficulty d i s)) <= 10)%nat.
Proof.
  intro Hlen. rewrite adjustDifficulty_history.
  destruct (10 <? length (adjustmentHistory s ++ [signedIntensity d i]))%nat
    eqn:Hfull.
  - destruct (adjustmentHistory s ++ [signedIntensity d i]) eqn:E.
    + simpl. lia.
    + assert (Hl : length (q :: l) = S (length (adjustmentHistory s))).
      { rewrite <- E, length_app. simpl. lia. }
      simpl in *. lia.
  - apply Nat.ltb_ge in Hfull. exact Hfull.
Qed.

Lemma set_lastAdjustmentTime_history t s :
  adjustmentHistory (set_lastAdjustmentTime t s) = adjustmentHistory s.
Proof. reflexivity. Qed.

Lemma step_history_length c s :
  (length (adjustmentHistory s) <= 10)%nat ->
  (length (adjustmentHistory (step c s)) <= 10)%nat.
Proof.
  intro Hlen. destruct c as [event data now now' | ]; simpl.
  - destruct (updateMetrics_shape event data now now' s)
      as [(_ & ->) | (_ & _ & ->)].
    + rewrite handleEvent_history. exact Hlen.
    + rewrite set_lastAdjustmentTime_history.
      apply adjustDifficulty_history_length.
      rewrite handleEvent_history. exact Hlen.
  - lia.
Qed.

(** X1: in every state reached from construction the adjustment history
    holds at most ten entries, and so does the count that [getDebugInfo]
    reports. *)
Theorem history_never_longer_than_ten
    (base : DifficultySettings) (cs : list Call) :
  (length (adjustmentHistory (run cs (constructor base))) <= 10)%nat
  /\ (adjustments (getDebugInfo (run cs (constructor base))) <= 10)%nat.
Proof.
  assert (Hgen : forall s,
            (length (adjustmentHistory s) <= 10)%nat ->
            (length (adjustmentHistory (run cs s)) <= 10)%nat).
  { induction cs as [ | c cs IH]; intros s Hlen; simpl.
    - exact Hlen.
    - apply IH. apply step_history_length. exact Hlen. }
  split; apply Hgen; simpl; lia.
Qed.

Lemma set_lastAdjustmentTime_console t s :
  console (set_lastAdjustmentTime t s) = console s.
Proof. reflexivity. Qed.

Lemma set_lastAdjustmentTime_currentSettings t s :
  currentSettings (set_lastAdjustmentTime t s) = currentSettings s.
Proof. reflexivity. Qed.

Lemma set_lastAdjustmentTime_playerMetrics t s :
  playerMetrics (set_lastAdjustmentTime t s) = playerMetrics s.
Proof. reflexivity. Qed.

Lemma skipn_S_tl {A : Type} (k : nat) (l : list A) :
  skipn (S k) l = tl (skipn k l).
Proof.
  revert l. induction k as [ | k IH]; intro l.
  - destruct l; reflexivity.
  - destruct l as [ | a l]; [reflexivity | ].
    change (skipn (S (S k)) (a :: l)) with (skipn (S k) l).
    change (skipn (S k) (a :: l)) with (skipn k l).
    apply IH.
Qed.

(** Pushing on the last ten and evicting the head when that makes eleven
    gives the last ten of the longer list. *)
Lemma lastn_push (acc : list Q) (x : Q) :
  lastn 10 (acc ++ [x])
  = if (10 <? length (lastn 10 acc ++ [x]))%nat
    then tl (lastn 10 acc ++ [x])
    else lastn 10 acc ++ [x].
Proof.
  unfold lastn. rewrite !length_app, length_skipn.
  change (length [x]) with 1%nat.
  destruct (Nat.le_gt_cases 10 (length acc)) as [Hfull | Hroom].
  - replace (length acc + 1 - 10)%nat with (S (length acc - 10)) by lia.
    replace (10 <? length acc - (length acc - 10) + 1)%nat with true
      by (symmetry; apply Nat.ltb_lt; lia).
    rewrite skipn_app, skipn_S_tl.
    replace (S (length acc - 10) - length acc)%nat with 0%nat by lia.
    change (skipn 0 [x]) with [x].
    destruct (skipn (length acc - 10) acc) as [ | a rest] eqn:E.
    + exfalso.
      assert (Hl : length (skipn (length acc - 10) acc) = 10%nat)
        by (rewrite length_skipn; lia).
      rewrite E in Hl. discriminate Hl.
    + reflexivity.
  - replace (length acc + 1 - 10)%nat with 0%nat by lia.
    replace (length acc - 10)%nat with 0%nat by lia.
    change (skipn 0 (acc ++ [x])) with (acc ++ [x]).
    change (skipn 0 acc) with acc.
    replace (10 <? length acc - 0 + 1)%nat with false
      by (symmetry; apply Nat.ltb_ge; lia).
    reflexivity.
Qed.

Lemma lastLine_adjusted t d i s :
  lastLine (set_lastAdjustmentTime t (adjustDifficulty d i s))
  = Some {| logDirection := d; logIntensity := i |}.
Proof.
  unfold lastLine.
  rewrite set_lastAdjustmentTime_console, adjustDifficulty_console, map_app.
  apply last_last.
Qed.

Lemma signedSinceReset_update acc event data now now' cs s :
  signedSinceReset acc (UpdateMetrics event data now now' :: cs) s
  = if applied s (updateMetrics event data now now' s) then
      match lastLine (updateMetrics event data now now' s) with
      | Some line =>
          signedSinceReset
            (acc ++ [signedIntensity (logDirection line) (logIntensity line)])
            cs (updateMetrics event data now now' s)
      | None =>
          signedSinceReset acc cs (updateMetrics event data now now' s)
      end
    else signedSinceReset acc cs (updateMetrics event data now now' s).
Proof. reflexivity. Qed.

Lemma history_is_lastn cs :
  forall acc s,
    adjustmentHistory s = lastn 10 acc ->
    adjustmentHistory (run cs s) = lastn 10 (signedSinceReset acc cs s).
Proof.
  induction cs as [ | c cs IH]; intros acc s Hinv.
  - exact Hinv.
  - destruct c as [event data now now' | ].
    + rewrite signedSinceReset_update.
      change (run (UpdateMetrics event data now now' :: cs) s)
        with (run cs (updateMetrics event data now now' s)).
      destruct (updateMetrics_shape event data now now' s)
        as [(-> & Heq) | (-> & _ & Heq)].
      * apply IH. rewrite Heq, handleEvent_history. exact Hinv.
      * assert (Hline :
          lastLine (updateMetrics event data now now' s)
          = Some
              {| logDirection :=
                   direction (shouldAdjustDifficulty
                     (updateSkillLevel (handleEvent event data now s)));
                 logIntensity :=
                   intensity (shouldAdjustDifficulty
                     (updateSkillLevel (handleEvent event data now s))) |})
          by (rewrite Heq; apply lastLine_adjusted).
        rewrite Hline. cbv [logDirection logIntensity].
        apply IH. rewrite Heq.
        rewrite set_lastAdjustmentTime_history, adjustDifficulty_history,
          handleEvent_history, Hinv.
        symmetry. apply lastn_push.
    + change (run (Reset :: cs) s) with (run cs (reset s)).
      change (signedSinceReset acc (Reset :: cs) s)
        with (signedSinceReset [] cs (reset s)).
      apply IH. reflexivity.
Qed.

(** X2: the adjustment history is a first-in-first-out window.  In every
    state reached from construction it consists of the signed intensities
    (positive for an increase, negative for a decrease) of the last ten
    adjustments applied since the last [reset()], or of all of them when
    there were fewer, the oldest first. *)
Theorem history_is_the_last_ten_adjustments
    (base : DifficultySettings) (cs : list Call) :
  adjustmentHistory (run cs (constructor base))
  = lastn 10 (signedSinceReset [] cs (constructor base)).
Proof. apply history_is_lastn. reflexivity. Qed.

(** ** Fields that nothing writes *)

Lemma handleEvent_averageAttempts event data now s :
  averageAttempts (playerMetrics (handleEvent event data now s))
  = averageAttempts (playerMetrics s).
Proof.
  event_cases event; try reflexivity.
  destruct data as [[[t |]] |]; simpl; try reflexivity.
  destruct (negb (Qeq_bool t 0)); reflexivity.
Qed.

Lemma adjustDifficulty_ringRequirement d i s :
  ringRequirement (currentSettings (adjustDifficulty d i s))
  = ringRequirement (currentSettings s).
Proof. rewrite adjustDifficulty_currentSettings. reflexivity. Qed.

Lemma step_untouched c s :
  averageAttempts (playerMetrics (step c s))
  = averageAttempts (playerMetrics s)
  /\ (ringRequirement (currentSettings s)
      = ringRequirement (baseSettings s) ->
      ringRequirement (currentSettings (step c s))
      = ringRequirement (baseSettings (step c s))).
Proof.
  rewrite step_baseSettings.
  destruct c as [event data now now' | ]; [ | split; reflexivity].
  change (step (UpdateMetrics event data now now') s)
    with (updateMetrics event data now now' s).
  split.
  - unfold updateMetrics. rewrite considerAdjustment_playerMetrics.
    change (averageAttempts
              (playerMetrics (updateSkillLevel (handleEvent event data now s))))
      with (averageAttempts (playerMetrics (handleEvent event data now s))).
    apply handleEvent_averageAttempts.
  - intro Hinv.
    destruct (updateMetrics_cases event data now now' s)
      as [(_ & -> & _) | (_ & _ & _ & _)]; [exact Hinv | ].
    destruct (updateMetrics_shape event data now now' s)
      as [(_ & ->) | (_ & _ & ->)].
    + destruct (updateSkillLevel_frame (handleEvent event data now s))
        as (_ & -> & _).
      destruct (handleEvent_frame event data now s) as (_ & -> & _).
      exact Hinv.
    + rewrite set_lastAdjustmentTime_currentSettings,
        adjustDifficulty_ringRequirement.
      destruct (updateSkillLevel_frame (handleEvent event data now s))
        as (_ & -> & _).
      destruct (handleEvent_frame event data now s) as (_ & -> & _).
      exact Hinv.
Qed.

(** X3: no event, adjustment or reset ever writes the baseline, the metric
    averageAttempts or the setting ringRequirement: in every state reached
    from construction the baseline is the one given to the constructor,
    averageAttempts is still 3, and the current ringRequirement is the
    baseline's. *)
Theorem baseline_averageAttempts_ringRequirement_never_change
    (base : DifficultySettings) (cs : list Call) :
  baseSettings (run cs (constructor base)) = base
  /\ averageAttempts (getPlayerMetrics (run cs (constructor base))) = 3
  /\ ringRequirement (getCurrentSettings (run cs (constructor base)))
     = ringRequirement base.
Proof.
  split; [apply run_baseSettings | ].
  assert (Hgen : forall s,
            ringRequirement (currentSettings s)
            = ringRequirement (baseSettings s) ->
            averageAttempts (playerMetrics (run cs s))
            = averageAttempts (playerMetrics s)
            /\ ringRequirement (currentSettings (run cs s))
               = ringRequirement (baseSettings s)).
  { induction cs as [ | c cs IH]; intros s Hinv.
    - split; [reflexivity | exact Hinv].
    - change (run (c :: cs) s) with (run cs (step c s)).
      destruct (step_untouched c s) as [Hav Hring].
      destruct (IH (step c s) (Hring Hinv)) as [IHav IHring].
      rewrite IHav, IHring, Hav, step_baseSettings.
      split; reflexivity. }
  destruct (Hgen (constructor base) eq_refl) as [Hav Hring].
  unfold getPlayerMetrics, getCurrentSettings.
  rewrite Hav, Hring. split; reflexivity.
Qed.

(** ** The skill estimate and the size of an adjustment *)

(** Turns divisions by a literal into multiplications, for [lra]. *)
Ltac const_div :=
  unfold Qdiv in *;
  repeat match goal with
  | |- context [/ (Zpos ?p # 1)] => change (/ (Zpos p # 1)) with (1 # p)
  | H : context [/ (Zpos ?p # 1)] |- _ =>
      change (/ (Zpos p # 1)) with (1 # p) in H
  end.

(** Splits every [Math.max], [Math.min], [Math.abs] and comparison of the
    goal along its test. *)
Ltac minmax :=
  unfold Math_max, Math_min, Math_abs, gt, lt in *;
  repeat match goal with
  | |- context [Qlt_le_dec ?a ?b] => destruct (Qlt_le_dec a b)
  | H : context [Qlt_le_dec ?a ?b] |- _ => destruct (Qlt_le_dec a b)
  end.

Lemma handleEvent_skillLevel event data now s :
  skillLevel (playerMetrics (handleEvent event data now s))
  = skillLevel (playerMetrics s).
Proof.
  event_cases event; try reflexivity.
  destruct data as [[[t |]] |]; simpl; try reflexivity.
  destruct (negb (Qeq_bool t 0)); reflexivity.
Qed.

Lemma handleEvent_successes_nonneg event data now s :
  (0 <= consecutiveSuccesses s)%Z ->
  (0 <= consecutiveSuccesses (handleEvent event data now s))%Z.
Proof.
  intro Hs.
  event_cases event; simpl; try lia.
  destruct data as [[[t |]] |]; simpl; try lia.
  destruct (negb (Qeq_bool t 0)); simpl; lia.
Qed.

Lemma handleEvent_reactionTime_nonneg event data now now' s :
  punctual (UpdateMetrics event data now now') ->
  0 <= reactionTime (playerMetrics s) ->
  0 <= reactionTime (playerMetrics (handleEvent event data now s)).
Proof.
  intros Hp Hrt.
  event_cases event; simpl; try exact Hrt.
  destruct data as [[[t |]] |]; simpl; try exact Hrt.
  destruct (negb (Qeq_bool t 0)); simpl; try exact Hrt.
  simpl in Hp. unfold lerp. lra.
Qed.

Lemma updateSkillLevel_inUnit s :
  inUnit (successRate (playerMetrics s)) ->
  0 <= reactionTime (playerMetrics s) ->
  (0 <= consecutiveSuccesses s)%Z ->
  inUnit (skillLevel (playerMetrics s)) ->
  inUnit (skillLevel (playerMetrics (updateSkillLevel s))).
Proof.
  intros Hrate Hrt Hs Hskill.
  assert (Hs' : 0 <= inject_Z (consecutiveSuccesses s))
    by (rewrite Zle_Qle in Hs; exact Hs).
  unfold updateSkillLevel. simpl.
  apply lerp_inUnit; try assumption; unfold inUnit in *.
  - minmax; const_div; lra.
  - lra.
Qed.

Lemma step_wellBehaved c s :
  punctual c -> wellBehaved s -> wellBehaved (step c s).
Proof.
  intros Hp (Hrates & Hs & Hrt & Hskill).
  destruct c as [event data now now' | ].
  - change (step (UpdateMetrics event data now now') s)
      with (updateMetrics event data now now' s).
    assert (Hrates' : ratesInUnit (updateMetrics event data now now' s))
      by (apply (step_ratesInUnit (UpdateMetrics event data now now'));
          exact Hrates).
    unfold wellBehaved. split; [exact Hrates' | ].
    unfold updateMetrics.
    destruct (considerAdjustment_counters now'
                (updateSkillLevel (handleEvent event data now s)))
      as (_ & _ & -> & _).
    rewrite considerAdjustment_playerMetrics.
    split; [ | split].
    + apply (handleEvent_successes_nonneg event data now s Hs).
    + apply (handleEvent_reactionTime_nonneg event data now now' s Hp Hrt).
    + apply updateSkillLevel_inUnit.
      * apply (handleEvent_ratesInUnit event data now s Hrates).
      * apply (handleEvent_reactionTime_nonneg event data now now' s Hp Hrt).
      * apply (handleEvent_successes_nonneg event data now s Hs).
      * rewrite handleEvent_skillLevel. exact Hskill.
  - unfold wellBehaved. split.
    + apply (step_ratesInUnit Reset). exact Hrates.
    + simpl. repeat split; try apply Hskill; try exact Hrt; lia.
Qed.

Lemma constructor_wellBehaved base : wellBehaved (constructor base).
Proof.
  unfold wellBehaved, ratesInUnit, inUnit. simpl.
  repeat split; try lra; lia.
Qed.

Lemma run_wellBehaved cs :
  forall s, Forall punctual cs -> wellBehaved s -> wellBehaved (run cs s).
Proof.
  induction cs as [ | c cs IH]; intros s Hp Hinv.
  - exact Hinv.
  - change (run (c :: cs) s) with (run cs (step c s)).
    inversion Hp as [ | c' cs' Hc Hcs]; subst.
    apply IH; [exact Hcs | ]. apply step_wellBehaved; assumption.
Qed.

(** X4: as long as no [player_input] marker is later than the clock
    reading of its call, reactionTime never becomes negative and skillLevel
    stays within [0,1], in every state reached from construction. *)
Theorem skill_stays_in_unit_with_punctual_markers
    (base : DifficultySettings) (cs : list Call) :
  Forall punctual cs ->
  0 <= reactionTime (getPlayerMetrics (run cs (constructor base)))
  /\ inUnit (skillLevel (getPlayerMetrics (run cs (constructor base)))).
Proof.
  intro Hp.
  destruct (run_wellBehaved cs (constructor base) Hp
              (constructor_wellBehaved base)) as (_ & _ & Hrt & Hskill).
  split; assumption.
Qed.

Lemma keyThenDeaths_punctual : Forall punctual keyThenDeaths.
Proof.
  unfold keyThenDeaths, fourDeaths, death.
  repeat constructor. simpl. unfold Qle. simpl. lia.
Qed.

(** An instance: a key press with a marker 10 ms old, then four deaths. *)
Lemma skill_stays_in_unit_with_punctual_markers_witness :
  Forall punctual keyThenDeaths
  /\ inUnit (skillLevel (getPlayerMetrics (run keyThenDeaths fresh))).
Proof.
  split; [exact keyThenDeaths_punctual | ].
  apply (skill_stays_in_unit_with_punctual_markers
           baseDifficulty keyThenDeaths keyThenDeaths_punctual).
Defined.

Lemma decision_moderate s :
  inUnit (frustrationLevel (playerMetrics s)) ->
  inUnit (skillLevel (playerMetrics s)) ->
  moderate (intensity (shouldAdjustDifficulty s)).
Proof.
  unfold inUnit, moderate, shouldAdjustDifficulty. intros Hf Hk.
  destruct (gt (frustrationLevel (playerMetrics s)) 0.7
            || lt (successRate (playerMetrics s)) 0.4
            || (3 <? consecutiveFailures s)%Z).
  { simpl. minmax; lra. }
  destruct (lt (engagementScore (playerMetrics s)) 0.4
            || gt (successRate (playerMetrics s)) 0.9
            || (5 <? consecutiveSuccesses s)%Z).
  { simpl. destruct (gt (successRate (playerMetrics s)) 0.9); lra. }
  destruct (gt (Math_abs (skillLevel (playerMetrics s) - 0.5)) 0.2).
  - simpl. minmax; lra.
  - simpl. lra.
Qed.

Lemma Forall_tl {A : Type} (P : A -> Prop) (l : list A) :
  Forall P l -> Forall P (tl l).
Proof. intro H. destruct H; [constructor | assumption]. Qed.

Lemma step_moderate c s :
  punctual c ->
  wellBehaved s ->
  Forall (fun line => moderate (logIntensity line)) (console s) ->
  Forall (fun x => - 0.2 <= x <= 0.2) (adjustmentHistory s) ->
  Forall (fun line => moderate (logIntensity line)) (console (step c s))
  /\ Forall (fun x => - 0.2 <= x <= 0.2) (adjustmentHistory (step c s)).
Proof.
  intros Hp Hwell Hcon Hhist.
  pose proof (step_wellBehaved c s Hp Hwell) as Hwell'.
  destruct c as [event data now now' | ]; [ | split; [exact Hcon | constructor]].
  change (step (UpdateMetrics event data now now') s)
    with (updateMetrics event data now now' s) in *.
  destruct Hwell' as ((_ & Hf & _) & _ & _ & Hk).
  assert (Hm : playerMetrics (updateMetrics event data now now' s)
               = playerMetrics
                   (updateSkillLevel (handleEvent event data now s)))
    by (unfold updateMetrics; apply considerAdjustment_playerMetrics).
  rewrite Hm in Hf, Hk.
  pose proof (decision_moderate _ Hf Hk) as Hi.
  pose proof (handleEvent_frame event data now s) as (_ & _ & _ & _ & Hc1).
  pose proof (updateSkillLevel_frame (handleEvent event data now s))
    as (_ & _ & _ & _ & _ & _ & _ & Hc2).
  destruct (updateMetrics_shape event data now now' s)
    as [(_ & ->) | (_ & _ & ->)].
  - rewrite Hc2, Hc1, handleEvent_history. split; assumption.
  - rewrite set_lastAdjustmentTime_console, adjustDifficulty_console,
      set_lastAdjustmentTime_history, adjustDifficulty_history,
      handleEvent_history, Hc2, Hc1.
    assert (Hpushed :
      Forall (fun x => - 0.2 <= x <= 0.2)
        (adjustmentHistory s
         ++ [signedIntensity
               (direction (shouldAdjustDifficulty
                  (updateSkillLevel (handleEvent event data now s))))
               (intensity (shouldAdjustDifficulty
                  (updateSkillLevel (handleEvent event data now s))))])).
    { apply Forall_app. split; [exact Hhist | ].
      constructor; [ | constructor].
      unfold moderate in Hi.
      destruct (direction _); unfold signedIntensity; lra. }
    split.
    + apply Forall_app. split; [exact Hcon | ].
      constructor; [exact Hi | constructor].
    + destruct (10 <? _)%nat; [apply Forall_tl | ]; exact Hpushed.
Qed.

Lemma run_moderate cs :
  forall s,
    Forall punctual cs ->
    wellBehaved s ->
    Forall (fun line => moderate (logIntensity line)) (console s) ->
    Forall (fun x => - 0.2 <= x <= 0.2) (adjustmentHistory s) ->
    Forall (fun line => moderate (logIntensity line)) (console (run cs s))
    /\ Forall (fun x => - 0.2 <= x <= 0.2) (adjustmentHistory (run cs s)).
Proof.
  induction cs as [ | c cs IH]; intros s Hp Hwell Hcon Hhist.
  - split; assumption.
  - change (run (c :: cs) s) with (run cs (step c s)).
    inversion Hp as [ | c' cs' Hc Hcs]; subst.
    destruct (step_moderate c s Hc Hwell Hcon Hhist) as [Hcon' Hhist'].
    apply IH; try assumption. apply step_wellBehaved; assumption.
Qed.

(** X5: as long as no [player_input] marker is later than the clock
    reading of its call, every adjustment ever applied has an intensity
    between 0 and 0.2, so that every entry of the adjustment history lies
    between -0.2 and 0.2. *)
Theorem applied_intensities_are_at_most_a_fifth
    (base : DifficultySettings) (cs : list Call) :
  Forall punctual cs ->
  Forall (fun line => moderate (logIntensity line))
    (console (run cs (constructor base)))
  /\ Forall (fun x => - 0.2 <= x <= 0.2)
       (adjustmentHistory (run cs (constructor base))).
Proof.
  intro Hp.
  apply run_moderate; try assumption.
  - apply constructor_wellBehaved.
  - constructor.
  - constructor.
Qed.

(** An instance: the key press and the four deaths; the one adjustment
    applied is the relief of the fourth death, by 0.2. *)
Lemma applied_intensities_are_at_most_a_fifth_witness :
  Forall punctual keyThenDeaths
  /\ adjustmentHistory (run keyThenDeaths fresh) = [- 0.2]
  /\ Forall (fun x => - 0.2 <= x <= 0.2)
       (adjustmentHistory (run keyThenDeaths fresh)).
Proof.
  split; [exact keyThenDeaths_punctual | split].
  - vm_compute. reflexivity.
  - apply (applied_intensities_are_at_most_a_fifth
             baseDifficulty keyThenDeaths keyThenDeaths_punctual).
Defined.

(** ** The engagement estimate *)

Lemma handleEvent_engagement_nonneg event data now s :
  0 <= engagementScore (playerMetrics s) ->
  0 <= engagementScore (playerMetrics (handleEvent event data now s)).
Proof.
  intro He.
  event_cases event; simpl; try exact He.
  - unfold lerp. minmax; const_div; lra.
  - unfold lerp. minmax; const_div; lra.
  - destruct data as [[[t |]] |]; simpl; try exact He.
    destruct (negb (Qeq_bool t 0)); exact He.
Qed.

(** One event keeps engagementScore below a bound [B] that is at least
    0.9, and at least 1.05 when the event is a power-up, provided the level
    did not start after the clock reading of the event. *)
Lemma handleEvent_engagement_upper (B : Q) event data now s :
  0.9 <= B ->
  (event = "power_up_collected"%string -> 1.05 <= B) ->
  (levelStartTime s <= now)%Z ->
  (0 <= deathCount s)%Z ->
  engagementScore (playerMetrics s) <= B ->
  engagementScore (playerMetrics (handleEvent event data now s)) <= B.
Proof.
  intros HB Hpu Hclock Hdeaths He.
  event_cases event; simpl; try exact He.
  - assert (Htime : 0 <= inject_Z (now - levelStartTime s)).
    { assert (H : (0 <= now - levelStartTime s)%Z) by lia.
      rewrite Zle_Qle in H. exact H. }
    assert (Hattempts : 1 <= inject_Z (deathCount s + 1)).
    { assert (H : (1 <= deathCount s + 1)%Z) by lia.
      rewrite Zle_Qle in H. exact H. }
    unfold lerp. minmax; const_div; lra.
  - assert (HB' : 1.05 <= B)
      by (apply Hpu; apply String.eqb_eq; assumption).
    unfold lerp. minmax; const_div; lra.
  - destruct data as [[[t |]] |]; simpl; try exact He.
    destruct (negb (Qeq_bool t 0)); exact He.
Qed.

Lemma handleEvent_levelStartTime event data now s :
  (levelStartTime s <= now)%Z ->
  (levelStartTime (handleEvent event data now s) <= now)%Z.
Proof.
  intro Hclock.
  event_cases event; simpl; try lia.
  destruct data as [[[t |]] |]; simpl; try lia.
  destruct (negb (Qeq_bool t 0)); simpl; lia.
Qed.

Lemma updateMetrics_levelStartTime event data now now' s :
  levelStartTime (updateMetrics event data now now' s)
  = levelStartTime (handleEvent event data now s).
Proof.
  unfold updateMetrics.
  destruct (considerAdjustment_counters now'
              (updateSkillLevel (handleEvent event data now s)))
    as (_ & _ & _ & -> & _).
  reflexivity.
Qed.

Lemma run_engagement_nonneg cs :
  forall s,
    0 <= engagementScore (playerMetrics s) ->
    0 <= engagementScore (playerMetrics (run cs s)).
Proof.
  induction cs as [ | c cs IH]; intros s He.
  - exact He.
  - change (run (c :: cs) s) with (run cs (step c s)).
    apply IH. destruct c as [event data now now' | ]; [ | exact He].
    change (step (UpdateMetrics event data now now') s)
      with (updateMetrics event data now now' s).
    destruct (updateMetrics_metrics event data now now' s) as (_ & _ & ->).
    apply handleEvent_engagement_nonneg. exact He.
Qed.

Lemma run_engagement_upper (B : Q) cs :
  0.9 <= B ->
  Forall (fun c => eventOf c = Some "power_up_collected"%string -> 1.05 <= B)
    cs ->
  forall t s,
    clockFrom t cs ->
    (levelStartTime s <= t)%Z ->
    ratesInUnit s ->
    engagementScore (playerMetrics s) <= B ->
    engagementScore (playerMetrics (run cs s)) <= B.
Proof.
  intros HB Hpu.
  induction cs as [ | c cs IH]; intros t s Hclock Hstart Hrates He.
  - exact He.
  - change (run (c :: cs) s) with (run cs (step c s)).
    inversion Hpu as [ | c' cs' Hc Hcs]; subst.
    pose proof (step_ratesInUnit c s Hrates) as Hrates'.
    destruct c as [event data now now' | ].
    + destruct Hclock as [Hnow Hclock].
      change (step (UpdateMetrics event data now now') s)
        with (updateMetrics event data now now' s) in *.
      apply (IH Hcs now); try assumption.
      * rewrite updateMetrics_levelStartTime.
        apply handleEvent_levelStartTime. lia.
      * destruct (updateMetrics_metrics event data now now' s)
          as (_ & _ & ->).
        apply handleEvent_engagement_upper; try assumption.
        -- intro E. apply Hc. simpl. rewrite E. reflexivity.
        -- lia.
        -- apply Hrates.
    + apply (IH Hcs t); assumption.
Qed.

Lemma constructor_ratesInUnit base : ratesInUnit (constructor base).
Proof. apply (run_ratesInUnit base []). Qed.

(** X6: engagementScore is never negative in any state reached from
    construction, and when the clock readings of the calls never run
    backwards it never exceeds 1.05. *)
Theorem engagement_between_zero_and_bonus_ceiling
    (base : DifficultySettings) (cs : list Call) :
  0 <= engagementScore (getPlayerMetrics (run cs (constructor base)))
  /\ (clockFrom 0 cs ->
      engagementScore (getPlayerMetrics (run cs (constructor base)))
      <= 1.05).
Proof.
  split.
  - apply run_engagement_nonneg. simpl. lra.
  - intro Hclock.
    apply (run_engagement_upper 1.05 cs) with (t := 0%Z); try assumption.
    + lra.
    + apply Forall_forall. intros c _ _. lra.
    + simpl. lia.
    + apply constructor_ratesInUnit.
    + simpl. lra.
Qed.

Lemma sixPowerUps_clock : clockFrom 0 sixPowerUps.
Proof. simpl. lia. Qed.

(** An instance: the six power-ups, whose readings go from 1000 to 6000. *)
Lemma engagement_between_zero_and_bonus_ceiling_witness :
  clockFrom 0 sixPowerUps
  /\ engagementScore (getPlayerMetrics (run sixPowerUps fresh)) <= 1.05.
Proof.
  split; [exact sixPowerUps_clock | ].
  apply (proj2 (engagement_between_zero_and_bonus_ceiling
                  baseDifficulty sixPowerUps)).
  exact sixPowerUps_clock.
Defined.


Lemma fourDeaths_clock : clockFrom 0 fourDeaths.
Proof. simpl. lia. Qed.

Lemma fourDeaths_notPowerUp : Forall notPowerUp fourDeaths.
Proof. repeat constructor; intro H; discriminate H. Qed.


(** ** The effect of an adjustment on legal settings *)

(** X8: on settings within their ranges an adjustment moves every setting
    the way its direction says, clamping included.  A decrease of intensity
    between 0 and 1 raises neither enemySpeed, gravityStrength, enemyCount
    nor platformSpacing and does not lower powerUpFrequency; an increase of
    intensity at least 0 lowers none of the first four and does not raise
    powerUpFrequency. *)
Theorem adjustment_moves_settings_in_its_direction (i : Q) (s : Adjuster) :
  withinRanges (currentSettings s) ->
  (0 <= i <= 1 ->
   enemySpeed (currentSettings (adjustDifficulty decrease i s))
   <= enemySpeed (currentSettings s)
   /\ gravityStrength (currentSettings (adjustDifficulty decrease i s))
      <= gravityStrength (currentSettings s)
   /\ enemyCount (currentSettings (adjustDifficulty decrease i s))
      <= enemyCount (currentSettings s)
   /\ platformSpacing (currentSettings (adjustDifficulty decrease i s))
      <= platformSpacing (currentSettings s)
   /\ powerUpFrequency (currentSettings s)
      <= powerUpFrequency (currentSettings (adjustDifficulty decrease i s)))
  /\ (0 <= i ->
      enemySpeed (currentSettings s)
      <= enemySpeed (currentSettings (adjustDifficulty increase i s))
      /\ gravityStrength (currentSettings s)
         <= gravityStrength (currentSettings (adjustDifficulty increase i s))
      /\ enemyCount (currentSettings s)
         <= enemyCount (currentSettings (adjustDifficulty increase i s))
      /\ platformSpacing (currentSettings s)
         <= platformSpacing (currentSettings (adjustDifficulty increase i s))
      /\ powerUpFrequency (currentSettings (adjustDifficulty increase i s))
         <= powerUpFrequency (currentSettings s)).
Proof.
  intros (Hspeed & Hcount & Hspace & Hgrav & Hfreq).
  rewrite !adjustDifficulty_currentSettings.
  destruct (currentSettings s) as [speed count space ring grav freq].
  cbv [enemySpeed enemyCount platformSpacing gravityStrength
       powerUpFrequency] in *.
  cbv beta iota zeta.
  split; intro Hi.
  - pose proof (Qfloor_le (count * (1 - i))) as Hfloor.
    assert (Hsi : 0 <= speed * i) by (apply Qmult_le_0_compat; lra).
    assert (Hgi : 0 <= grav * i) by (apply Qmult_le_0_compat; lra).
    assert (Hci : 0 <= count * i) by (apply Qmult_le_0_compat; lra).
    unfold Math_floor.
    repeat split; minmax; lra.
  - pose proof (Qle_ceiling (count * (1 + i))) as Hceil.
    assert (Hsi : 0 <= speed * i) by (apply Qmult_le_0_compat; lra).
    assert (Hgi : 0 <= grav * i) by (apply Qmult_le_0_compat; lra).
    assert (Hci : 0 <= count * i) by (apply Qmult_le_0_compat; lra).
    unfold Math_ceil.
    repeat split; minmax; lra.
Qed.

(** An instance: the relief of 20% on the game's baseline. *)
Lemma adjustment_moves_settings_in_its_direction_witness :
  withinRanges (currentSettings fresh)
  /\ 0 <= 0.2 <= 1
  /\ enemySpeed (currentSettings (adjustDifficulty decrease 0.2 fresh))
     <= enemySpeed (currentSettings fresh).
Proof.
  assert (Hi : 0 <= 0.2 <= 1) by (split; lra).
  split; [exact baseDifficulty_withinRanges | split; [exact Hi | ]].
  apply (proj1 (adjustment_moves_settings_in_its_direction
                  0.2 fresh baseDifficulty_withinRanges) Hi).
Defined.

Lemma Math_min_inject (a b : Z) :
  Math_min (inject_Z a) (inject_Z b) = inject_Z (Z.min a b).
Proof.
  unfold Math_min. destruct (Qlt_le_dec (inject_Z b) (inject_Z a)) as [H | H].
  - rewrite <- Zlt_Qlt in H. rewrite Z.min_r by lia. reflexivity.
  - rewrite <- Zle_Qle in H. rewrite Z.min_l by lia. reflexivity.
Qed.

Lemma Math_max_inject (a b : Z) :
  Math_max (inject_Z a) (inject_Z b) = inject_Z (Z.max a b).
Proof.
  unfold Math_max. destruct (Qlt_le_dec (inject_Z a) (inject_Z b)) as [H | H].
  - rewrite <- Zlt_Qlt in H. rewrite Z.max_r by lia. reflexivity.
  - rewrite <- Zle_Qle in H. rewrite Z.max_l by lia. reflexivity.
Qed.


(** ** The rate of adjustments *)

Lemma nth_cooledDown (l : list Z) :
  forall t0 i t,
    Forall (cooledDown t0) l ->
    ForallOrdPairs cooledDown l ->
    nth_error l i = Some t ->
    (t0 + ADJUSTMENT_COOLDOWN * (Z.of_nat i + 1) <= t)%Z.
Proof.
  induction l as [ | a l IH]; intros t0 i t Hafter Hpairs Hnth.
  - destruct i; discriminate Hnth.
  - inversion Hafter as [ | a' l' Ha Hl]; subst.
    inversion Hpairs as [ | a' l' Hal Hll]; subst.
    unfold cooledDown, ADJUSTMENT_COOLDOWN in *.
    destruct i as [ | j].
    + injection Hnth as <-. simpl. lia.
    + simpl in Hnth.
      pose proof (IH a j t Hal Hll Hnth) as Hj.
      unfold ADJUSTMENT_COOLDOWN in Hj. lia.
Qed.

(** X10: adjustments are rate limited from the start.  Along every run
    from construction, the adjustment applied as number i+1 (counting from
    i = 0) reads a clock of at least 10,000 * (i+1): by clock reading T no
    more than T / 10,000 adjustments have been applied. *)
Theorem nth_adjustment_not_before_n_cooldowns
    (base : DifficultySettings) (cs : list Call) (i : nat) (t : Z) :
  nth_error (appliedAt cs (constructor base)) i = Some t ->
  (ADJUSTMENT_COOLDOWN * (Z.of_nat i + 1) <= t)%Z.
Proof.
  intro Hnth.
  destruct (appliedAt_cooledDown cs (constructor base)) as [Hafter Hpairs].
  apply (nth_cooledDown _ 0%Z i t Hafter Hpairs Hnth).
Qed.

(** An instance: the first adjustment of the four deaths, at 100003. *)
Lemma nth_adjustment_not_before_n_cooldowns_witness :
  nth_error (appliedAt fourDeaths (constructor baseDifficulty)) 0
  = Some 100003%Z
  /\ (ADJUSTMENT_COOLDOWN * (Z.of_nat 0 + 1) <= 100003)%Z.
Proof.
  assert (Hnth :
    nth_error (appliedAt fourDeaths (constructor baseDifficulty)) 0
    = Some 100003%Z) by (vm_compute; reflexivity).
  split; [exact Hnth | ].
  apply (nth_adjustment_not_before_n_cooldowns
           baseDifficulty fourDeaths 0 100003%Z Hnth).
Defined.

(** ** Clamping twice *)

Lemma clamped_idempotent (lo hi x : Q) :
  lo <= hi ->
  Math_max lo (Math_min hi (Math_max lo (Math_min hi x)))
  = Math_max lo (Math_min hi x).
Proof.
  intro Hlh. minmax; try reflexivity; exfalso; lra.
Qed.

(** X11: [clampSettings] is idempotent, and on settings that already lie
    within their ranges it changes no number. *)
Theorem clampSettings_idempotent_and_neutral_on_legal (s : Adjuster) :
  clampSettings (clampSettings s) = clampSettings s
  /\ (withinRanges (currentSettings s) ->
      sameSettings (currentSettings (clampSettings s)) (currentSettings s)).
Proof.
  split.
  - destruct s as [m b [speed count space ring grav freq] h l d st a f k o].
    unfold clampSettings. fields.
    rewrite !clamped_idempotent by lra. reflexivity.
  - intros (Hspeed & Hcount & Hspace & Hgrav & Hfreq).
    destruct s as [m b [speed count space ring grav freq] h l d st a f k o].
    unfold clampSettings, sameSettings. fields.
    cbv [enemySpeed enemyCount platformSpacing gravityStrength
         powerUpFrequency currentSettings] in *.
    repeat split; try reflexivity; apply clamped_inside; assumption.
Qed.

(** An instance: the game's baseline. *)
Lemma clampSettings_idempotent_and_neutral_on_legal_witness :
  withinRanges (currentSettings fresh)
  /\ sameSettings (currentSettings (clampSettings fresh))
       (currentSettings fresh).
Proof.
  split; [exact baseDifficulty_withinRanges | ].
  apply (proj2 (clampSettings_idempotent_and_neutral_on_legal fresh)).
  exact baseDifficulty_withinRanges.
Defined.

(** ** Deaths since the level started *)

Lemma deathsIn_cons c cs :
  deathsIn (c :: cs)
  = (match eventOf c with
     | Some event => if (event =? "player_death")%string then 1 else 0
     | None => 0
     end + deathsIn cs)%Z.
Proof.
  unfold deathsIn. simpl filter.
  destruct (eventOf c) as [event | ]; [ | lia].
  destruct (event =? "player_death")%string; simpl length; lia.
Qed.

Lemma handleEvent_deathCount event data now s :
  event <> "level_start"%string ->
  deathCount (handleEvent event data now s)
  = (deathCount s + if (event =? "player_death")%string then 1 else 0)%Z.
Proof.
  intro Hstart.
  event_cases event; simpl; try lia.
  - exfalso. apply Hstart. apply String.eqb_eq. assumption.
  - destruct data as [[[t |]] |]; simpl; try lia.
    destruct (negb (Qeq_bool t 0)); simpl; lia.
Qed.

Lemma run_deathCount cs :
  forall s,
    Forall withinLevel cs ->
    deathCount (run cs s) = (deathCount s + deathsIn cs)%Z.
Proof.
  induction cs as [ | c cs IH]; intros s Hin.
  - unfold deathsIn. simpl. lia.
  - change (run (c :: cs) s) with (run cs (step c s)).
    inversion Hin as [ | c' cs' [Hcall Hstart] Hcs]; subst.
    rewrite (IH _ Hcs), deathsIn_cons.
    destruct c as [event data now now' | ]; [ | exfalso; apply Hcall; reflexivity].
    change (step (UpdateMetrics event data now now') s)
      with (updateMetrics event data now now' s).
    destruct (updateMetrics_counters event data now now' s) as (_ & _ & ->).
    rewrite handleEvent_deathCount.
    + cbn [eventOf]. destruct (event =? "player_death")%string; lia.
    + intro E. apply Hstart. simpl. rewrite E. reflexivity.
Qed.

(** X12: deathCount counts the [player_death] events since the last
    [level_start]; neither [level_complete] nor any other event clears it.
    So after a [level_start] followed by any calls other than
    [level_start] and [reset()], deathCount is the number of deaths among
    them, and a [level_complete] arriving then moves successRate by a lerp
    of weight 0.2 towards 1 / (that number + 1). *)
Theorem deathCount_counts_deaths_since_level_start
    (s : Adjuster) (now now' : Z) (cs : list Call) :
  Forall withinLevel cs ->
  deathCount (run (levelStart now now' :: cs) s) = deathsIn cs
  /\ forall data t t',
       successRate
         (playerMetrics
            (updateMetrics "level_complete" data t t'
               (run (levelStart now now' :: cs) s)))
       = lerp (successRate
                 (playerMetrics (run (levelStart now now' :: cs) s)))
           (1 / inject_Z (deathsIn cs + 1)) 0.2.
Proof.
  intro Hin.
  assert (Hcount : deathCount (run (levelStart now now' :: cs) s)
                   = deathsIn cs).
  { change (run (levelStart now now' :: cs) s)
      with (run cs (updateMetrics "level_start" None now now' s)).
    rewrite (run_deathCount cs _ Hin).
    destruct (updateMetrics_counters "level_start" None now now' s)
      as (_ & _ & ->).
    simpl. lia. }
  split; [exact Hcount | ].
  intros data t t'.
  destruct (updateMetrics_metrics "level_complete" data t t'
              (run (levelStart now now' :: cs) s)) as (-> & _).
  rewrite <- Hcount. reflexivity.
Qed.

Lemma fourDeaths_withinLevel : Forall withinLevel fourDeaths.
Proof. repeat constructor; intro H; discriminate H. Qed.

(** An instance: a level started at 99000 and the four deaths; completing
    the level then moves successRate towards 1/5. *)
Lemma deathCount_counts_deaths_since_level_start_witness :
  Forall withinLevel fourDeaths
  /\ deathCount (run (levelStart 99000 99000 :: fourDeaths) fresh) = 4%Z.
Proof.
  split; [exact fourDeaths_withinLevel | ].
  apply (proj1 (deathCount_counts_deaths_since_level_start
                  fresh 99000 99000 fourDeaths fourDeaths_withinLevel)).
Defined.

(** ** Key presses as the game reports them *)

Lemma nonzero_marker_truthy (t : Z) :
  t <> 0%Z -> Qeq_bool (inject_Z t) 0 = false.
Proof.
  intro Ht. destruct (Qeq_bool (inject_Z t) 0) eqn:E; [ | reflexivity].
  exfalso. apply Qeq_bool_iff in E. unfold Qeq in E. simpl in E. lia.
Qed.

Lemma step_sameMillisecond c s :
  sameMillisecond c ->
  reactionTime (playerMetrics (step c s))
  == 0.9 * reactionTime (playerMetrics s).
Proof.
  intros (t & now' & Ht & ->).
  change (step (keyDown t t now') s)
    with (updateMetrics "player_input" (marked (inject_Z t)) t now' s).
  rewrite updateMetrics_reactionTime.
  unfold handleEvent, marked. simpl.
  rewrite (nonzero_marker_truthy t Ht). simpl.
  unfold lerp. lra.
Qed.


Lemma twoKeys_sameMillisecond : Forall sameMillisecond twoKeys.
Proof.
  unfold twoKeys. repeat constructor.
  - exists 100000%Z, 100000%Z. split; [discriminate | reflexivity].
  - exists 100250%Z, 100250%Z. split; [discriminate | reflexivity].
Qed.


(** * The game state manager *)

Lemma apply_lives (o : GameStateManager.Op) (g : GameStateManager.GameState) :
  (GameStateManager.lives g <= 5)%Z ->
  (GameStateManager.lives (GameStateManager.apply o g) <= 5)%Z.
Proof.
  intro Hl. destruct o; simpl; try lia.
  unfold GameStateManager.addLife.
  destruct (GameStateManager.lives g <? 5)%Z eqn:E; simpl; [ | lia].
  apply Z.ltb_lt in E. lia.
Qed.

(** X15: whatever calls are made on a fresh game state, lives never exceed
    5: [addLife()] is the only call that raises them and it stops at 5. *)
Theorem lives_never_exceed_five (os : list GameStateManager.Op) :
  (GameStateManager.lives
     (GameStateManager.getState
        (GameStateManager.play os GameStateManager.initial)) <= 5)%Z.
Proof.
  assert (Hgen : forall g,
            (GameStateManager.lives g <= 5)%Z ->
            (GameStateManager.lives (GameStateManager.play os g) <= 5)%Z).
  { induction os as [ | o os IH]; intros g Hl; simpl.
    - exact Hl.
    - apply IH. apply apply_lives. exact Hl. }
  apply Hgen. simpl. lia.
Qed.

Lemma apply_score (o : GameStateManager.Op) (g : GameStateManager.GameState) :
  o <> GameStateManager.Reset ->
  GameStateManager.score (GameStateManager.apply o g)
  = fold_left PrimFloat.add (GameStateManager.pointsOf o)
      (GameStateManager.score g).
Proof.
  intro Hr. destruct o; try reflexivity.
  - unfold GameStateManager.apply, GameStateManager.addLife.
    destruct (GameStateManager.lives g <? 5)%Z; reflexivity.
  - exfalso. apply Hr. reflexivity.
Qed.

(** X16: between two resets the score is the running binary64 sum of the
    points: after any calls other than [reset()], it is what the engine's
    addition gives when, starting from the score before and in the order
    of the calls, 100 is added for every [collectRing()], 500 for every
    [nextLevel()] and [points] for every [addScore(points)]; no other call
    touches it. *)
Theorem score_is_the_sum_of_the_points
    (os : list GameStateManager.Op) (g : GameStateManager.GameState) :
  ~ In GameStateManager.Reset os ->
  GameStateManager.score (GameStateManager.play os g)
  = fold_left PrimFloat.add (GameStateManager.pointsIn os)
      (GameStateManager.score g).
Proof.
  revert g. induction os as [ | o os IH]; intros g Hr.
  - reflexivity.
  - change (GameStateManager.play (o :: os) g)
      with (GameStateManager.play os (GameStateManager.apply o g)).
    assert (Ho : o <> GameStateManager.Reset)
      by (intro H; apply Hr; left; exact H).
    assert (Hos : ~ In GameStateManager.Reset os)
      by (intro H; apply Hr; right; exact H).
    rewrite (IH (GameStateManager.apply o g) Hos), (apply_score o g Ho).
    change (GameStateManager.pointsIn (o :: os))
      with (GameStateManager.pointsOf o ++ GameStateManager.pointsIn os).
    rewrite fold_left_app. reflexivity.
Qed.

(** An instance: a ring, a speed power-up worth 200 and a finished level
    on a fresh state give 800 points. *)
Lemma score_is_the_sum_of_the_points_witness :
  ~ In GameStateManager.Reset
      [GameStateManager.CollectRing; GameStateManager.AddScore 200;
       GameStateManager.NextLevel]
  /\ GameStateManager.score
       (GameStateManager.play
          [GameStateManager.CollectRing; GameStateManager.AddScore 200;
           GameStateManager.NextLevel] GameStateManager.initial)
     = 800%float.
Proof.
  assert (Hr : ~ In GameStateManager.Reset
                 [GameStateManager.CollectRing; GameStateManager.AddScore 200;
                  GameStateManager.NextLevel]).
  { simpl. intros [H | [H | [H | []]]]; discriminate H. }
  split; [exact Hr | ].
  rewrite (score_is_the_sum_of_the_points _ GameStateManager.initial Hr).
  vm_compute. reflexivity.
Defined.

(** The sum rounds as the engine's does: a point added to 2^53 is lost,
    and 0.1 + 0.2 is not 0.3. *)
Lemma score_rounds_as_binary64 :
  GameStateManager.score
    (GameStateManager.play
       [GameStateManager.AddScore 9007199254740992;
        GameStateManager.AddScore 1] GameStateManager.initial)
  = 9007199254740992%float
  /\ GameStateManager.score
       (GameStateManager.play
          [GameStateManager.AddScore 0.1; GameStateManager.AddScore 0.2]
          GameStateManager.initial)
     = 0.30000000000000004%float.
Proof. split; vm_compute; reflexivity. Qed.

Lemma play_rings (k : nat) (g : GameStateManager.GameState) :
  GameStateManager.ringsCollected
    (GameStateManager.play (repeat GameStateManager.CollectRing k) g)
  = (GameStateManager.ringsCollected g + Z.of_nat k)%Z
  /\ GameStateManager.totalRings
       (GameStateManager.play (repeat GameStateManager.CollectRing k) g)
     = GameStateManager.totalRings g.
Proof.
  revert g. induction k as [ | k IH]; intro g.
  - simpl. split; [lia | reflexivity].
  - change (GameStateManager.play
              (repeat GameStateManager.CollectRing (S k)) g)
      with (GameStateManager.play (repeat GameStateManager.CollectRing k)
              (GameStateManager.collectRing g)).
    destruct (IH (GameStateManager.collectRing g)) as [-> ->].
    simpl. split; [lia | reflexivity].
Qed.

(** X17: a level is loaded by [setTotalRings(n)] and [resetLevel()]; after
    k rings collected from there, [allRingsCollected()] answers true
    exactly when k is at least n.  In particular a level without rings, and
    the fresh state, count as complete at once. *)
Theorem all_rings_collected_after_enough_rings
    (g : GameStateManager.GameState) (n : Q) (k : nat) :
  GameStateManager.allRingsCollected
    (GameStateManager.play (repeat GameStateManager.CollectRing k)
       (GameStateManager.resetLevel (GameStateManager.setTotalRings n g)))
  = true
  <-> n <= inject_Z (Z.of_nat k).
Proof.
  unfold GameStateManager.allRingsCollected.
  destruct (play_rings k
              (GameStateManager.resetLevel
                 (GameStateManager.setTotalRings n g))) as [-> ->].
  simpl. apply Qle_bool_iff.
Qed.

Lemma nthLoseLife_value (k : nat) :
  forall g,
    GameStateManager.nthLoseLife k g
    = (Z.of_nat k + 1 <? GameStateManager.lives g)%Z.
Proof.
  induction k as [ | k IH]; intro g.
  - simpl. destruct (0 <? GameStateManager.lives g - 1)%Z eqn:E;
      symmetry; [apply Z.ltb_lt; apply Z.ltb_lt in E
                | apply Z.ltb_ge; apply Z.ltb_ge in E]; lia.
  - change (GameStateManager.nthLoseLife (S k) g)
      with (GameStateManager.nthLoseLife k
              (snd (GameStateManager.loseLife g))).
    rewrite IH. simpl GameStateManager.lives.
    destruct (Z.of_nat k + 1 <? GameStateManager.lives g - 1)%Z eqn:E;
      symmetry; [apply Z.ltb_lt; apply Z.ltb_lt in E
                | apply Z.ltb_ge; apply Z.ltb_ge in E]; lia.
Qed.

(** X18: [loseLife()] reports the game as still on while lives remain: in
    a row of calls, the call made after k earlier ones returns true exactly
    when the lives at the start exceed k+1.  With the 3 lives of a fresh
    state the first two deaths return true and the third false; nothing
    stops lives from going below zero on further calls. *)
Theorem loseLife_returns_true_while_lives_remain
    (k : nat) (g : GameStateManager.GameState) :
  GameStateManager.nthLoseLife k g
  = (Z.of_nat k + 1 <? GameStateManager.lives g)%Z
  /\ GameStateManager.lives
       (GameStateManager.play (repeat GameStateManager.LoseLife k) g)
     = (GameStateManager.lives g - Z.of_nat k)%Z.
Proof.
  split; [apply nthLoseLife_value | ].
  revert g. induction k as [ | k IH]; intro g.
  - simpl. lia.
  - change (GameStateManager.play
              (repeat GameStateManager.LoseLife (S k)) g)
      with (GameStateManager.play (repeat GameStateManager.LoseLife k)
              (snd (GameStateManager.loseLife g))).
    rewrite IH. simpl GameStateManager.lives. lia.
Qed.

(** * The object pool *)

Section PoolProperties.

Variable T : Type.
Variable eq_dec : forall a b : T, {a = b} + {a <> b}.
Variable factory : nat -> T.

Local Abbreviation Pool := (ObjectPool.ObjectPool T).
Local Abbreviation pool := (ObjectPool.pool T).
Local Abbreviation active := (ObjectPool.active T).
Local Abbreviation maxSize := (ObjectPool.maxSize T).
Local Abbreviation made := (ObjectPool.made T).
Local Abbreviation resetCalls := (ObjectPool.resetCalls T).
Local Abbreviation get := (ObjectPool.get T eq_dec factory).
Local Abbreviation release := (ObjectPool.release T eq_dec).
Local Abbreviation releaseAll := (ObjectPool.releaseAll T).
Local Abbreviation giveBack := (ObjectPool.giveBack T).
Local Abbreviation apply := (ObjectPool.apply T eq_dec factory).
Local Abbreviation play := (ObjectPool.play T eq_dec factory).
Local Abbreviation tidy := (ObjectPool.tidy T factory).
Local Abbreviation newPool := (ObjectPool.constructor T factory).

Lemma remove_NoDup (x : T) (l : list T) :
  NoDup l -> NoDup (remove eq_dec x l).
Proof.
  induction 1 as [ | a l Ha Hl IH]; simpl.
  - constructor.
  - destruct (eq_dec x a); [exact IH | ].
    constructor; [ | exact IH].
    intro Hin. apply in_remove in Hin. apply Ha. apply Hin.
Qed.

Lemma release_inactive (obj : T) (s : Pool) :
  ~ In obj (active s) -> release obj s = s.
Proof.
  intro Hout. unfold ObjectPool.release, ObjectPool.setHas.
  destruct (in_dec eq_dec obj (active s)); [contradiction | reflexivity].
Qed.

(** X19: releasing an object that is not active changes nothing, and so
    releasing the same object twice is the same as releasing it once: the
    reset callback runs once and the object is pooled once. *)
Theorem release_twice_is_release_once (obj : T) (s : Pool) :
  release obj (release obj s) = release obj s.
Proof.
  destruct (in_dec eq_dec obj (active s)) as [Hin | Hout].
  - apply release_inactive.
    unfold ObjectPool.release, ObjectPool.setHas.
    destruct (in_dec eq_dec obj (active s)); [ | contradiction].
    simpl. unfold ObjectPool.setDelete. apply remove_In.
  - rewrite (release_inactive obj s Hout). apply release_inactive. exact Hout.
Qed.

(** X20: an active object released while the pool has room is reset once,
    leaves the active set, and is the object that the next [get()] hands
    out. *)
Theorem released_object_is_handed_out_next (obj : T) (s : Pool) :
  In obj (active s) ->
  (Z.of_nat (length (pool s)) < maxSize s)%Z ->
  fst (get (release obj s)) = obj
  /\ resetCalls (release obj s) = resetCalls s ++ [obj]
  /\ ~ In obj (active (release obj s)).
Proof.
  intros Hin Hroom.
  unfold ObjectPool.release, ObjectPool.setHas.
  destruct (in_dec eq_dec obj (active s)); [ | contradiction].
  unfold ObjectPool.giveBack, ObjectPool.get. simpl.
  apply Z.ltb_lt in Hroom. rewrite Hroom. simpl.
  repeat split. unfold ObjectPool.setDelete. apply remove_In.
Qed.

Lemma preallocate_pool n : forall s : Pool,
  length (pool (ObjectPool.preallocate T factory n s)) = (n + length (pool s))%nat
  /\ maxSize (ObjectPool.preallocate T factory n s) = maxSize s.
Proof.
  induction n as [ | n IH]; intro s; simpl.
  - split; reflexivity.
  - destruct (IH {| ObjectPool.pool := factory (made s) :: pool s;
           ObjectPool.active := active s;
           ObjectPool.maxSize := maxSize s;
           ObjectPool.made := S (made s);
           ObjectPool.resetCalls := resetCalls s |}) as [-> ->].
    simpl. split; [lia | reflexivity].
Qed.

Lemma giveBack_bound (B : Z) obj (s : Pool) :
  (maxSize s <= B)%Z ->
  (Z.of_nat (length (pool s)) <= B)%Z ->
  (Z.of_nat (length (pool (giveBack obj s))) <= B)%Z
  /\ maxSize (giveBack obj s) = maxSize s.
Proof.
  intros Hm Hl. unfold ObjectPool.giveBack. simpl.
  destruct (Z.of_nat (length (pool s)) <? maxSize s)%Z eqn:E.
  - apply Z.ltb_lt in E. simpl length. split; [lia | reflexivity].
  - split; [exact Hl | reflexivity].
Qed.

Lemma fold_giveBack_bound (B : Z) (l : list T) : forall s : Pool,
  (maxSize s <= B)%Z ->
  (Z.of_nat (length (pool s)) <= B)%Z ->
  (Z.of_nat (length (pool (fold_left (fun acc obj => giveBack obj acc) l s))) <= B)%Z
  /\ maxSize (fold_left (fun acc obj => giveBack obj acc) l s) = maxSize s.
Proof.
  induction l as [ | x l IH]; intros s Hm Hl; simpl.
  - split; [exact Hl | reflexivity].
  - destruct (giveBack_bound B x s Hm Hl) as [Hl' Hm'].
    assert (Hm1 : (maxSize (giveBack x s) <= B)%Z) by (rewrite Hm'; exact Hm).
    destruct (IH (giveBack x s) Hm1 Hl') as [Hl'' Hm''].
    split; [exact Hl'' | ]. rewrite Hm''. exact Hm'.
Qed.

Lemma apply_bound (B : Z) o (s : Pool) :
  (maxSize s <= B)%Z ->
  (Z.of_nat (length (pool s)) <= B)%Z ->
  (Z.of_nat (length (pool (apply o s))) <= B)%Z
  /\ maxSize (apply o s) = maxSize s.
Proof.
  intros Hm Hl. destruct o as [ | obj | ]; simpl.
  - unfold ObjectPool.get. destruct (pool s) as [ | x rest] eqn:E; simpl.
    + split; [lia | reflexivity].
    + simpl in Hl. split; [lia | reflexivity].
  - unfold ObjectPool.release.
    destruct (negb (ObjectPool.setHas T eq_dec obj (active s))).
    + split; [exact Hl | reflexivity].
    + exact (giveBack_bound B obj
               {| ObjectPool.pool := pool s;
                  ObjectPool.active :=
                    ObjectPool.setDelete T eq_dec obj (active s);
                  ObjectPool.maxSize := maxSize s;
                  ObjectPool.made := made s;
                  ObjectPool.resetCalls := resetCalls s |} Hm Hl).
  - unfold ObjectPool.releaseAll. simpl.
    apply fold_giveBack_bound; assumption.
Qed.



(** The factory creates a new object at every call. *)
Hypothesis factory_fresh : forall m n, factory m = factory n -> m = n.

Lemma tidy_fresh (s : Pool) :
  tidy s -> ~ In (factory (made s)) (pool s ++ active s).
Proof.
  intros [_ Hfrom] Hin.
  destruct (Hfrom _ Hin) as (n & Hn & E).
  apply factory_fresh in E. lia.
Qed.

Lemma preallocate_tidy n : forall s : Pool,
  tidy s -> tidy (ObjectPool.preallocate T factory n s).
Proof.
  induction n as [ | n IH]; intros s Ht; simpl.
  - exact Ht.
  - apply IH. pose proof (tidy_fresh s Ht) as Hfresh.
    destruct Ht as [Hnd Hfrom]. split; simpl.
    + constructor; assumption.
    + intros obj [<- | Hin].
      * exists (made s). split; [lia | reflexivity].
      * destruct (Hfrom obj Hin) as (k & Hk & E).
        exists k. split; [lia | exact E].
Qed.

Lemma setAdd_new (obj : T) (l : list T) :
  ~ In obj l -> ObjectPool.setAdd T eq_dec obj l = l ++ [obj].
Proof.
  intro Hout. unfold ObjectPool.setAdd.
  destruct (in_dec eq_dec obj l); [contradiction | reflexivity].
Qed.

Lemma get_tidy (s : Pool) :
  tidy s ->
  tidy (snd (get s))
  /\ ~ In (fst (get s)) (active s)
  /\ In (fst (get s)) (active (snd (get s)))
  /\ ~ In (fst (get s)) (pool (snd (get s))).
Proof.
  intro Ht. pose proof (tidy_fresh s Ht) as Hfresh.
  destruct Ht as [Hnd Hfrom].
  unfold ObjectPool.get. destruct (pool s) as [ | obj rest] eqn:E; simpl in *.
  - rewrite (setAdd_new _ _ Hfresh).
    repeat split; simpl.
    + apply (Permutation_NoDup (Permutation_cons_append _ _)).
      constructor; assumption.
    + intros x Hin. apply in_app_or in Hin. destruct Hin as [Hin | [<- | []]].
      * destruct (Hfrom x Hin) as (k & Hk & Ek).
        exists k. split; [lia | exact Ek].
      * exists (made s). split; [lia | reflexivity].
    + exact Hfresh.
    + apply in_or_app. right. left. reflexivity.
    + intros [].
  - inversion Hnd as [ | o l Hout Hrest]; subst.
    assert (Hact : ~ In obj (active s))
      by (intro H; apply Hout; apply in_or_app; right; exact H).
    assert (Hpool : ~ In obj rest)
      by (intro H; apply Hout; apply in_or_app; left; exact H).
    rewrite (setAdd_new _ _ Hact).
    repeat split; simpl.
    + rewrite app_assoc.
      apply (Permutation_NoDup (Permutation_cons_append _ _)).
      constructor; assumption.
    + intros x Hin. apply Hfrom.
      rewrite app_assoc in Hin. apply in_app_or in Hin.
      destruct Hin as [Hin | [<- | []]]; [right; exact Hin | left; reflexivity].
    + exact Hact.
    + apply in_or_app. right. left. reflexivity.
    + exact Hpool.
Qed.

Lemma giveBack_pending (x : T) (l : list T) (s : Pool) :
  NoDup (pool s ++ x :: l) ->
  (forall obj, In obj (pool s ++ x :: l) ->
     exists n, (n < made s)%nat /\ obj = factory n) ->
  NoDup (pool (giveBack x s) ++ l)
  /\ (forall obj, In obj (pool (giveBack x s) ++ l) ->
        exists n, (n < made (giveBack x s))%nat /\ obj = factory n).
Proof.
  intros Hnd Hfrom.
  assert (Hmid : NoDup (x :: pool s ++ l))
    by (apply (Permutation_NoDup (Permutation_sym (Permutation_middle _ _ _)));
        exact Hnd).
  unfold ObjectPool.giveBack. simpl.
  destruct (Z.of_nat (length (pool s)) <? maxSize s)%Z; split.
  - exact Hmid.
  - intros obj Hin. apply Hfrom.
    apply (Permutation_in obj (Permutation_middle _ _ _)). exact Hin.
  - inversion Hmid; assumption.
  - intros obj Hin. apply Hfrom.
    apply (Permutation_in obj (Permutation_middle _ _ _)). right. exact Hin.
Qed.

Lemma fold_giveBack_tidy (l : list T) : forall s : Pool,
  NoDup (pool s ++ l) ->
  (forall obj, In obj (pool s ++ l) ->
     exists n, (n < made s)%nat /\ obj = factory n) ->
  NoDup (pool (fold_left (fun acc obj => giveBack obj acc) l s))
  /\ (forall obj,
        In obj (pool (fold_left (fun acc obj => giveBack obj acc) l s)) ->
        exists n,
          (n < made (fold_left (fun acc obj => giveBack obj acc) l s))%nat
          /\ obj = factory n).
Proof.
  induction l as [ | x l IH]; intros s Hnd Hfrom; simpl.
  - rewrite app_nil_r in *. split; assumption.
  - destruct (giveBack_pending x l s Hnd Hfrom) as [Hnd' Hfrom'].
    apply (IH (giveBack x s) Hnd' Hfrom').
Qed.

Lemma remove_app_NoDup (x : T) (l1 l2 : list T) :
  NoDup (l1 ++ l2) -> NoDup (l1 ++ remove eq_dec x l2).
Proof.
  induction l1 as [ | a l1 IH]; simpl; intro Hnd.
  - apply remove_NoDup. exact Hnd.
  - inversion Hnd as [ | a' l' Ha Hl]; subst.
    constructor; [ | apply IH; exact Hl].
    intro Hin. apply Ha. apply in_app_or in Hin. apply in_or_app.
    destruct Hin as [Hin | Hin]; [left; exact Hin | right].
    apply in_remove in Hin. apply Hin.
Qed.

Lemma apply_tidy o (s : Pool) : tidy s -> tidy (apply o s).
Proof.
  intro Ht. destruct o as [ | obj | ]; simpl.
  - apply get_tidy. exact Ht.
  - unfold ObjectPool.release, ObjectPool.setHas.
    destruct (in_dec eq_dec obj (active s)) as [Hin | Hout]; [ | exact Ht].
    destruct Ht as [Hnd Hfrom]. simpl.
    assert (Hnd' : NoDup (obj :: pool s ++ remove eq_dec obj (active s))).
    { constructor; [ | apply remove_app_NoDup; exact Hnd].
      intro H. apply in_app_or in H. destruct H as [H | H].
      - apply in_split in Hin. destruct Hin as (l1 & l2 & E).
        rewrite E, app_assoc in Hnd. apply NoDup_remove_2 in Hnd.
        apply Hnd. apply in_or_app. left. apply in_or_app. left. exact H.
      - apply remove_In in H. exact H. }
    unfold ObjectPool.giveBack, ObjectPool.tidy, ObjectPool.setDelete. simpl.
    destruct (Z.of_nat (length (pool s)) <? maxSize s)%Z; split.
    + exact Hnd'.
    + intros x [<- | Hx].
      * apply Hfrom. apply in_or_app. right. exact Hin.
      * apply Hfrom. apply in_app_or in Hx. apply in_or_app.
        destruct Hx as [Hx | Hx]; [left; exact Hx | right].
        apply in_remove in Hx. apply Hx.
    + inversion Hnd'; assumption.
    + intros x Hx. apply Hfrom. apply in_app_or in Hx. apply in_or_app.
      destruct Hx as [Hx | Hx]; [left; exact Hx | right].
      apply in_remove in Hx. apply Hx.
  - destruct Ht as [Hnd Hfrom].
    destruct (fold_giveBack_tidy (active s) s Hnd Hfrom) as [Hnd' Hfrom'].
    unfold ObjectPool.releaseAll, ObjectPool.tidy. simpl.
    rewrite app_nil_r. split; assumption.
Qed.

Lemma play_tidy os : forall s : Pool, tidy s -> tidy (play os s).
Proof.
  induction os as [ | o os IH]; intros s Ht; simpl.
  - exact Ht.
  - apply IH. apply apply_tidy. exact Ht.
Qed.

(** X22: when the factory never returns the same object twice, a pool
    built by the constructor and used through [get], [release] and
    [releaseAll] never holds an object twice, pooled or active, and
    [get()] never hands out an object that is in use: the object returned
    was not active before the call, and after it is active and no longer
    pooled. *)
Theorem get_never_hands_out_an_object_in_use
    (initialSize : nat) (size : Z) (os : list (ObjectPool.Op T)) :
  NoDup (pool (play os (newPool initialSize size))
         ++ active (play os (newPool initialSize size)))
  /\ ~ In (fst (get (play os (newPool initialSize size))))
         (active (play os (newPool initialSize size)))
  /\ In (fst (get (play os (newPool initialSize size))))
       (active (snd (get (play os (newPool initialSize size)))))
  /\ ~ In (fst (get (play os (newPool initialSize size))))
         (pool (snd (get (play os (newPool initialSize size))))).
Proof.
  assert (Ht : tidy (play os (newPool initialSize size))).
  { apply play_tidy. unfold ObjectPool.constructor.
    apply preallocate_tidy. split; simpl.
    - constructor.
    - intros obj []. }
  split; [apply Ht | ].
  apply get_tidy. exact Ht.
Qed.

End PoolProperties.

Lemma oneOut_active : ObjectPool.active nat oneOut = [1%nat].
Proof. reflexivity. Qed.

(** An instance: object 1, handed out by the first [get()] of the small
    pool, is released and handed out again. *)
Lemma released_object_is_handed_out_next_witness :
  In 1%nat (ObjectPool.active nat oneOut)
  /\ (Z.of_nat (length (ObjectPool.pool nat oneOut))
      < ObjectPool.maxSize nat oneOut)%Z
  /\ fst (ObjectPool.get nat Nat.eq_dec numbered
            (ObjectPool.release nat Nat.eq_dec 1%nat oneOut)) = 1%nat.
Proof.
  assert (Hin : In 1%nat (ObjectPool.active nat oneOut))
    by (left; reflexivity).
  assert (Hroom : (Z.of_nat (length (ObjectPool.pool nat oneOut))
                   < ObjectPool.maxSize nat oneOut)%Z)
    by (vm_compute; reflexivity).
  split; [exact Hin | split; [exact Hroom | ]].
  apply (released_object_is_handed_out_next
           nat Nat.eq_dec numbered 1%nat oneOut Hin Hroom).
Defined.

Lemma numbered_fresh : forall m n, numbered m = numbered n -> m = n.
Proof. intros m n H. exact H. Qed.

(** An instance: the small pool after a [get()], a [release] and a
    [releaseAll]. *)
Lemma get_never_hands_out_an_object_in_use_witness :
  (forall m n, numbered m = numbered n -> m = n)
  /\ ~ In (fst (ObjectPool.get nat Nat.eq_dec numbered
                  (ObjectPool.play nat Nat.eq_dec numbered
                     [ObjectPool.Get nat; ObjectPool.Release nat 1%nat;
                      ObjectPool.Get nat; ObjectPool.Get nat]
                     smallPool)))
         (ObjectPool.active nat
            (ObjectPool.play nat Nat.eq_dec numbered
               [ObjectPool.Get nat; ObjectPool.Release nat 1%nat;
                ObjectPool.Get nat; ObjectPool.Get nat]
               smallPool)).
Proof.
  split; [exact numbered_fresh | ].
  apply (get_never_hands_out_an_object_in_use
           nat Nat.eq_dec numbered numbered_fresh 2 3
           [ObjectPool.Get nat; ObjectPool.Release nat 1%nat;
            ObjectPool.Get nat; ObjectPool.Get nat]).
Defined.

(** * Two more facts about the first two components *)

(** An instance: a level of three rings is complete after three rings. *)
Lemma all_rings_collected_after_enough_rings_witness :
  3 <= inject_Z (Z.of_nat 3)
  /\ GameStateManager.allRingsCollected
       (GameStateManager.play (repeat GameStateManager.CollectRing 3)
          (GameStateManager.resetLevel
             (GameStateManager.setTotalRings 3 GameStateManager.initial)))
     = true.
Proof.
  assert (Hk : 3 <= inject_Z (Z.of_nat 3)) by (vm_compute; discriminate).
  split; [exact Hk | ].
  apply (proj2 (all_rings_collected_after_enough_rings
                  GameStateManager.initial 3 3) Hk).
Defined.

(** X23: successRate and frustrationLevel stay within [0,1] and deathCount
    is never negative, in every state reached from construction, whatever
    the events, their payloads and the clock readings. *)
Theorem successRate_and_frustration_stay_in_unit
    (base : DifficultySettings) (cs : list Call) :
  inUnit (successRate (getPlayerMetrics (run cs (constructor base))))
  /\ inUnit (frustrationLevel (getPlayerMetrics (run cs (constructor base))))
  /\ (0 <= deathCount (run cs (constructor base)))%Z.
Proof.
  assert (Hgen : forall s, ratesInUnit s -> ratesInUnit (run cs s)).
  { induction cs as [ | c cs IH]; intros s Hinv.
    - exact Hinv.
    - change (run (c :: cs) s) with (run cs (step c s)).
      apply IH. apply step_ratesInUnit. exact Hinv. }
  apply Hgen. unfold ratesInUnit, inUnit. simpl.
  repeat split; try lra; lia.
Qed.
